(** * Goal-cache archive store on Google Cloud Storage (lib/cache.ts)

    A shallow embedding of [getCacheConfig], [getCachePath] and the
    [GoogleCloudStorageGoalCacheArchiveStore] class, in the two revisions
    of lib/cache.ts that the repository carries (copyright 2020 and 2019),
    followed by the properties proved about them.

    Conventions of the embedding.
    - A JavaScript string is a Rocq [string]: a sequence of 8-bit code
      units (the Latin-1 range).  Code units above 255 are outside the
      embedding.
    - A JavaScript object that is mutated in place lives in a heap and is
      named by its location; an optional property is an [option].
    - A function with effects is a computation in the monad [M]: it
      threads the world and either returns a value or throws an [Error]. *)

From Stdlib Require Import Ascii String.
From stdpp Require Import gmap strings list fin_maps.

Local Open Scope string_scope.

(** ** JavaScript strings *)

Module JsString.

Definition code (c : ascii) : nat := nat_of_ascii c.

Definition between (lo hi : nat) (c : ascii) : bool :=
  (lo <=? code c)%nat && (code c <=? hi)%nat.

(** [String.prototype.toLowerCase] on one code unit below 256: the
    letters A-Z, and the Latin-1 capitals U+00C0-U+00D6 and
    U+00D8-U+00DE, move 32 places up; every other unit is kept. *)
Definition lowerChar (c : ascii) : ascii :=
  if between 65 90 c || between 192 214 c || between 216 222 c
  then ascii_of_nat (code c + 32)
  else c.

Fixpoint toLowerCase (s : string) : string :=
  match s with
  | EmptyString => EmptyString
  | String c r => String (lowerChar c) (toLowerCase r)
  end.

Fixpoint drop (n : nat) (s : string) : string :=
  match n, s with
  | O, _ => s
  | S k, EmptyString => EmptyString
  | S k, String _ r => drop k r
  end.

Fixpoint take (n : nat) (s : string) : string :=
  match n, s with
  | O, _ => EmptyString
  | S k, EmptyString => EmptyString
  | S k, String c r => String c (take k r)
  end.

(** [Array.prototype.join]: an element that is [undefined] is joined
    as the empty string. *)
Fixpoint join (sep : string) (parts : list (option string)) : string :=
  match parts with
  | [] => ""
  | [p] => default "" p
  | p :: rest => default "" p +:+ sep +:+ join sep rest
  end.

(** A JavaScript string is falsy exactly when it is empty. *)
Definition truthy (s : string) : bool :=
  match s with EmptyString => false | String _ _ => true end.

(** *** [String.prototype.replace] with a regular expression

    A compiled pattern is its matcher: applied to the input from the
    current position on, it gives the length of the match that starts
    there, if there is one. *)
Definition Matcher := string -> option nat.

(** The replacement text: [$$] is a dollar sign, [$&] the matched text,
    [$`] the text before the match and [$'] the text after it.  None of
    the patterns below has a capture group, so [$1] and the like stand
    for themselves. *)
Fixpoint expandReplacement (repl pre matched post : string) : string :=
  match repl with
  | EmptyString => EmptyString
  | String "$" (String "$" r) => String "$" (expandReplacement r pre matched post)
  | String "$" (String "&" r) => matched +:+ expandReplacement r pre matched post
  | String "$" (String "`" r) => pre +:+ expandReplacement r pre matched post
  | String "$" (String "'" r) => post +:+ expandReplacement r pre matched post
  | String c r => String c (expandReplacement r pre matched post)
  end.

(** The scan of [replace]: [pre] is the input before the current
    position and [skip] the number of units still covered by the last
    match.  With [global] every match is replaced, scanning on from the
    end of each match (one unit further after an empty match);
    otherwise only the first match is. *)
Fixpoint replaceFrom (m : Matcher) (repl : string) (global : bool)
    (pre : string) (skip : nat) (s : string) : string :=
  match s with
  | EmptyString =>
      match skip, m EmptyString with
      | O, Some _ => expandReplacement repl pre "" ""
      | _, _ => ""
      end
  | String c r =>
      let pre' := pre +:+ String c "" in
      match skip with
      | S k => replaceFrom m repl global pre' k r
      | O =>
          match m s with
          | None => String c (replaceFrom m repl global pre' 0 r)
          | Some O =>
              expandReplacement repl pre "" s
                +:+ String c (if global then replaceFrom m repl global pre' 0 r else r)
          | Some (S k) =>
              expandReplacement repl pre (take (S k) s) (drop (S k) s)
                +:+ (if global then replaceFrom m repl global pre' k r else drop k r)
          end
      end
  end.

Definition replace (m : Matcher) (global : bool) (repl : string) (s : string) : string :=
  replaceFrom m repl global "" 0 s.

(** The character class [[-a-z0-9]]. *)
Definition inClass (c : ascii) : bool :=
  Ascii.eqb c "-" || between 97 122 c || between 48 57 c.

Definition notInClass (c : ascii) : bool := negb (inClass c).

Fixpoint spanLength (p : ascii -> bool) (s : string) : nat :=
  match s with
  | String c r => if p c then S (spanLength p r) else 0
  | EmptyString => 0
  end.

(** [/[^-a-z0-9]*/]: the longest run, possibly empty, of units outside
    the class. *)
Definition notInClassStar : Matcher :=
  fun s => Some (spanLength notInClass s).

Definition isHyphen (c : ascii) : bool := Ascii.eqb c "-".

(** [/--+/]: two hyphens and all the hyphens that follow them. *)
Definition hyphens2 : Matcher :=
  fun s =>
    match s with
    | String c1 (String c2 r) =>
        if isHyphen c1 && isHyphen c2 then Some (2 + spanLength isHyphen r) else None
    | _ => None
    end.

(** [/e$/]: a final letter e. *)
Definition finalE : Matcher :=
  fun s =>
    match s with
    | String "e" EmptyString => Some 1
    | _ => None
    end.

(** A pattern without operators, such as [/\$\{owner\}/], matches its
    own text. *)
Definition literal (lit : string) : Matcher :=
  fun s => if String.prefix lit s then Some (String.length lit) else None.

End JsString.

Import JsString.

(** ** The world: heap, object storage, local files and logs *)

(** The [cache] property of [GoogleCloudStorageCacheConfiguration]: every
    property is optional.  [CacheConfig] is the same object typed with all
    three properties required. *)
Record CacheBlock : Type := mkCacheBlock {
  bucket : option string;
  enabled : option bool;
  path : option string }.

Definition emptyObject : CacheBlock := mkCacheBlock None None None.

Definition loc := nat.

(** What this file reads of a [GoalInvocation].  [configuration_sdm_cache]
    is the reference held in [gi.configuration.sdm.cache], if there is
    one.  [gi.progressLog] is the sink [progressLog] of the world. *)
Record GoalInvocation : Type := mkGoalInvocation {
  configuration_name : string;
  configuration_sdm_cache : option loc;
  context_workspaceId : string;
  goalEvent_repo_providerId : string;
  goalEvent_repo_owner : string;
  goalEvent_repo_name : string;
  goalEvent_branch : string;
  goalEvent_sha : string }.

Record Error : Type := mkError { message : string }.

Inductive Outcome (A : Type) : Type :=
| Returned (a : A)
| Threw (e : Error).
Arguments Returned {A} a.
Arguments Threw {A} e.

Inductive Level : Type := debug | error.

(** Modelled from the spec: the object-storage capability and the local
    file system it copies from and to.  [objects] maps a bucket and an
    object key to the object's content and [files] a local path to the
    file's content.  [faults] schedules the transient failures: each
    storage request takes the head of the list and, when that is a
    message, fails with it and changes nothing else.  [calls] counts the
    requests issued. *)
Record Backend : Type := mkBackend {
  objects : gmap (string * string) string;
  files : gmap string string;
  faults : list (option string);
  calls : nat }.

(** The world.  [clientLog] holds the lines that [ll] writes through the
    client's logger, with their level, and [progressLog] the lines it
    writes to the progress log of the goal. *)
Record World : Type := mkWorld {
  heap : gmap loc CacheBlock;
  cloud : Backend;
  clientLog : list (Level * string);
  progressLog : list string }.

Definition M (A : Type) : Type := World -> Outcome A * World.

#[export] Instance M_ret : MRet M := fun A a w => (Returned a, w).

#[export] Instance M_bind : MBind M := fun A B f m w =>
  match m w with
  | (Returned a, w') => f a w'
  | (Threw e, w') => (Threw e, w')
  end.

Definition throw {A : Type} (e : Error) : M A := fun w => (Threw e, w).

(** [try { body } catch (e) { handler e }]. *)
Definition tryCatch {A : Type} (body : M A) (handler : Error -> M A) : M A :=
  fun w =>
    match body w with
    | (Returned a, w') => (Returned a, w')
    | (Threw e, w') => handler e w'
    end.

(** *** Objects *)

(** An object literal [{}] is a new object, at a location not in use. *)
Definition newObject (o : CacheBlock) : M loc := fun w =>
  let l := fresh (dom (heap w)) in
  (Returned l, mkWorld (<[l := o]> (heap w)) (cloud w) (clientLog w) (progressLog w)).

(** The object at a location.  The reference of an invocation always
    points to an object; a location without one reads as an empty object,
    and an assignment to it makes the object. *)
Definition deref (h : gmap loc CacheBlock) (l : loc) : CacheBlock :=
  default emptyObject (h !! l).

Definition get (l : loc) : M CacheBlock := fun w => (Returned (deref (heap w) l), w).

Definition assign (l : loc) (f : CacheBlock -> CacheBlock) : M unit := fun w =>
  (Returned tt,
   mkWorld (<[l := f (deref (heap w) l)]> (heap w)) (cloud w) (clientLog w) (progressLog w)).

Definition set_enabled (v : bool) (o : CacheBlock) : CacheBlock :=
  mkCacheBlock (bucket o) (Some v) (path o).
Definition set_bucket (v : string) (o : CacheBlock) : CacheBlock :=
  mkCacheBlock (Some v) (enabled o) (path o).
Definition set_path (v : string) (o : CacheBlock) : CacheBlock :=
  mkCacheBlock (bucket o) (enabled o) (Some v).

(** [a || b] where [a] is a possibly undefined string, or boolean. *)
Definition orString (a : option string) (b : string) : string :=
  match a with
  | Some s => if truthy s then s else b
  | None => b
  end.

Definition orBool (a : option bool) (b : bool) : bool :=
  match a with
  | Some true => true
  | _ => b
  end.

(** ** getCacheConfig (the same text in both revisions) *)

Definition defaultBucket (gi : GoalInvocation) : string :=
  replace hyphens2 true "-"
    (replace notInClassStar true ""
       (toLowerCase
          ("sdm-" +:+ context_workspaceId gi +:+ "-" +:+ configuration_name gi +:+ "-goal-cache"))).

Definition getCacheConfig (gi : GoalInvocation) : M loc :=
  cacheConfig ← match configuration_sdm_cache gi with
                 | Some l => mret l
                 | None => newObject emptyObject
                 end;
  o ← get cacheConfig;
  assign cacheConfig (set_enabled (orBool (enabled o) false));;
  o ← get cacheConfig;
  assign cacheConfig (set_bucket (orString (bucket o) (defaultBucket gi)));;
  o ← get cacheConfig;
  assign cacheConfig (set_path (orString (path o) "goal-cache"));;
  mret cacheConfig.

(** ** Logging *)

(** [ll(msg, pl, l = logger.debug)]: write to the client log at level [l]
    and to the goal's progress log. *)
Definition ll (msg : string) (l : option Level) : M unit := fun w =>
  (Returned tt,
   mkWorld (heap w) (cloud w)
     (clientLog w ++ [(default debug l, msg)]) (progressLog w ++ [msg])).

(** A property spliced into a template literal: [undefined] prints as
    its name. *)
Definition template (v : option string) : string := default "undefined" v.

(** ** The storage client *)

Module Storage.

(** [new Storage()]. *)
Inductive Storage : Type := newStorage.

Record UploadOptions : Type := mkUploadOptions {
  destination : string;
  predefinedAcl : option string;
  resumable : bool }.

(** Modelled from the spec: one request to the storage service.  It
    acts on the objects and the local files; a scheduled fault fails it
    before it has any effect. *)
Definition Disks : Type := gmap (string * string) string * gmap string string.

Definition request (act : Disks -> Outcome unit * Disks) : M unit := fun w =>
  let c := cloud w in
  let r := match head (faults c) with
           | Some (Some msg) => (Threw (mkError msg), (objects c, files c))
           | _ => act (objects c, files c)
           end in
  (fst r,
   mkWorld (heap w)
     (mkBackend (fst (snd r)) (snd (snd r)) (tail (faults c)) (S (calls c)))
     (clientLog w) (progressLog w)).

(** Modelled from the spec: [storage.bucket(name)] refuses a missing or
    empty name. *)
Definition bucket (s : Storage) (name : option string) : M string :=
  match name with
  | Some n => if truthy n then mret n
              else throw (mkError "A bucket name is needed to use Cloud Storage.")
  | None => throw (mkError "A bucket name is needed to use Cloud Storage.")
  end.

(** Modelled from the spec: [bucket.file(name)]. *)
Definition file (b : string) (name : string) : M (string * string) :=
  if truthy name then mret (b, name)
  else throw (mkError "A file name must be specified.").

Definition noSuchObject (f : string * string) : Error :=
  mkError ("No such object: " +:+ fst f +:+ "/" +:+ snd f).

(** Modelled from the spec: [upload(localFile, bucket, key)] copies the
    local file to the object, overwriting it. *)
Definition uploadAct (b : string) (pathString : string) (options : UploadOptions)
  : Disks -> Outcome unit * Disks := fun d =>
  match snd d !! pathString with
  | Some content => (Returned tt, (<[(b, destination options) := content]> (fst d), snd d))
  | None =>
      (Threw (mkError ("ENOENT: no such file or directory, stat '" +:+ pathString +:+ "'")), d)
  end.

Definition upload (b : string) (pathString : string) (options : UploadOptions) : M unit :=
  request (uploadAct b pathString options).

(** Modelled from the spec: [download(bucket, key, localFile)] copies
    the object to the local file, creating or overwriting it. *)
Definition downloadAct (f : string * string) (dest : string)
  : Disks -> Outcome unit * Disks := fun d =>
  match fst d !! f with
  | Some content => (Returned tt, (fst d, <[dest := content]> (snd d)))
  | None => (Threw (noSuchObject f), d)
  end.

Definition download (f : string * string) (dest : string) : M unit :=
  request (downloadAct f dest).

(** Modelled from the spec: [delete(bucket, key)]; deleting an absent
    object is an error. *)
Definition deleteAct (f : string * string) : Disks -> Outcome unit * Disks := fun d =>
  match fst d !! f with
  | Some _ => (Returned tt, (base.delete f (fst d), snd d))
  | None => (Threw (noSuchObject f), d)
  end.

Definition delete (f : string * string) : M unit := request (deleteAct f).

(** Modelled from the spec: [exists(bucket, key)], as the tests use it
    to observe the store. *)
Definition exists_ (c : Backend) (f : string * string) : bool :=
  bool_decide (is_Some (objects c !! f)).

End Storage.

Import Storage(Storage, newStorage).

(** [type GcsOp = (s: Storage, b: string, p: string) => Promise<any>].  At
    run time [b] is whatever [cacheConfig.bucket] holds. *)
Definition GcsOp : Type := Storage -> option string -> string -> M unit.

(** The call [op(storage, cacheConfig.bucket, cachePath)]: the bucket is
    read from the configuration object when the call is made. *)
Definition call (cacheConfig : loc) (op : GcsOp) (storage : Storage) (cachePath : string)
  : M unit :=
  o ← get cacheConfig; op storage (bucket o) cachePath.

(** The bodies of the arrow functions that [delete] and [retrieve] pass to
    [gcs], the same in both revisions. *)
Definition deleteOp : GcsOp := fun storage bucket cachePath =>
  b ← Storage.bucket storage bucket;
  f ← Storage.file b cachePath;
  Storage.delete f.

Definition retrieveOp (targetArchivePath : string) : GcsOp := fun storage bucket cachePath =>
  b ← Storage.bucket storage bucket;
  f ← Storage.file b cachePath;
  Storage.download f targetArchivePath.

(** ** The retry wrapper *)

(** Modelled from the spec: [doWithRetry(what, description)] of the
    automation client runs [what]; when it fails it runs it again, at
    most [retries] more times, and then fails with the last error. *)
Fixpoint retryLoop {A : Type} (n : nat) (what : M A) : M A := fun w =>
  match what w with
  | (Returned a, w') => (Returned a, w')
  | (Threw e, w') =>
      match n with
      | O => (Threw e, w')
      | S k => retryLoop k what w'
      end
  end.

Definition doWithRetry {A : Type} (retries : nat) (what : M A) (description : string) : M A :=
  retryLoop retries what.

(** ** The revision of 2020 *)

Module V2020.

(** Construct object path for cache configuration and classifier. *)
Definition getCachePath (cacheConfig : loc) (classifier : option string) : M string :=
  o ← get cacheConfig;
  mret (join "/" [path o; Some (default "default" classifier); Some "cache.tar.gz"]).

Definition storeOp (archivePath : string) : GcsOp := fun storage bucket cachePath =>
  b ← Storage.bucket storage bucket;
  Storage.upload b archivePath (Storage.mkUploadOptions cachePath None false).

Section ArchiveStore.

(** The number of retries of the automation client's default retry
    options. *)
Variable retries : nat.

Definition gcs (gi : GoalInvocation) (classifier : string) (op : GcsOp) (verb : string)
  : M unit :=
  cacheConfig ← getCacheConfig gi;
  cachePath ← getCachePath cacheConfig (Some classifier);
  let storage := newStorage in
  o ← get cacheConfig;
  let objectUri := "gs://" +:+ template (bucket o) +:+ "/" +:+ cachePath in
  let gerund := replace finalE false "ing" verb in
  tryCatch
    (ll (gerund +:+ " cache archive " +:+ objectUri) None;;
     doWithRetry retries (call cacheConfig op storage cachePath)
       (verb +:+ " cache archive");;
     ll (verb +:+ "d cache archive " +:+ objectUri) None)
    (fun e =>
       let e := mkError ("Failed to " +:+ verb +:+ " cache archive " +:+ objectUri
                         +:+ ": " +:+ message e) in
       ll (message e) (Some error);;
       if String.eqb verb "retrieve" then throw e else mret tt).

Definition store (gi : GoalInvocation) (classifier : string) (archivePath : string)
  : M unit :=
  gcs gi classifier (storeOp archivePath) "store".

Definition delete (gi : GoalInvocation) (classifier : string) : M unit :=
  gcs gi classifier deleteOp "delete".

Definition retrieve (gi : GoalInvocation) (classifier : string) (targetArchivePath : string)
  : M unit :=
  gcs gi classifier (retrieveOp targetArchivePath) "retrieve".

End ArchiveStore.

End V2020.

(** ** The revision of 2019 *)

Module V2019.

(** Construct unique object path for goal invocation. *)
Definition getCachePath (gi : GoalInvocation) (classifier : option string) : M string :=
  cacheConfig ← getCacheConfig gi;
  let classifierPath :=
    replace (literal "${sha}") true (goalEvent_sha gi)
      (replace (literal "${branch}") true (goalEvent_branch gi)
         (replace (literal "${repo}") true (goalEvent_repo_name gi)
            (replace (literal "${owner}") true (goalEvent_repo_owner gi)
               (replace (literal "${providerId}") true (goalEvent_repo_providerId gi)
                  (default "default" classifier))))) in
  o ← get cacheConfig;
  mret (join "/" [path o; Some (context_workspaceId gi); Some classifierPath;
                  Some "cache.tar.gz"]).

Definition gcs (gi : GoalInvocation) (classifier : string) (op : GcsOp) (verb : string)
  : M unit :=
  cacheConfig ← getCacheConfig gi;
  cachePath ← getCachePath gi (Some classifier);
  let storage := newStorage in
  o ← get cacheConfig;
  let objectUri := "gs://" +:+ template (bucket o) +:+ "/" +:+ cachePath in
  let gerund := replace finalE false "ing" verb in
  tryCatch
    (ll (gerund +:+ " cache archive " +:+ objectUri) None;;
     call cacheConfig op storage cachePath;;
     ll (verb +:+ "d cache archive " +:+ objectUri) None)
    (fun e =>
       let e := mkError ("Failed to " +:+ verb +:+ " cache archive " +:+ objectUri
                         +:+ ": " +:+ message e) in
       ll (message e) (Some error);;
       if String.eqb verb "retrieve" then throw e else mret tt).

Definition storeOp (archivePath : string) : GcsOp := fun storage bucket cachePath =>
  b ← Storage.bucket storage bucket;
  Storage.upload b archivePath
    (Storage.mkUploadOptions cachePath (Some "projectPrivate") false).

Definition store (gi : GoalInvocation) (classifier : string) (archivePath : string)
  : M unit :=
  gcs gi classifier (storeOp archivePath) "store".

Definition delete (gi : GoalInvocation) (classifier : string) : M unit :=
  gcs gi classifier deleteOp "delete".

Definition retrieve (gi : GoalInvocation) (classifier : string) (targetArchivePath : string)
  : M unit :=
  gcs gi classifier (retrieveOp targetArchivePath) "retrieve".

End V2019.

(** * The vocabulary of the properties *)

(** Keep the units that satisfy [p] and drop the others. *)
Fixpoint keep (p : ascii -> bool) (s : string) : string :=
  match s with
  | EmptyString => EmptyString
  | String c r => if p c then String c (keep p r) else keep p r
  end.

Definition startsWithHyphen (s : string) : bool :=
  match s with
  | String c _ => isHyphen c
  | EmptyString => false
  end.

(** Drop every hyphen that another hyphen follows, which leaves one hyphen
    of each run of hyphens. *)
Fixpoint squeeze (s : string) : string :=
  match s with
  | EmptyString => EmptyString
  | String c r =>
      if isHyphen c && startsWithHyphen r then squeeze r else String c (squeeze r)
  end.

Fixpoint allUnits (p : ascii -> bool) (s : string) : bool :=
  match s with
  | EmptyString => true
  | String c r => p c && allUnits p r
  end.

Fixpoint noHyphenPair (s : string) : bool :=
  match s with
  | EmptyString => true
  | String c r => negb (isHyphen c && startsWithHyphen r) && noHyphenPair r
  end.

(** The object that [getCacheConfig] works on: the cache block of the
    invocation, or a new object. *)
Definition cacheRef (gi : GoalInvocation) (w : World) : loc :=
  match configuration_sdm_cache gi with
  | Some l => l
  | None => fresh (dom (heap w))
  end.

(** Its properties when [getCacheConfig] starts. *)
Definition cacheBefore (gi : GoalInvocation) (w : World) : CacheBlock :=
  match configuration_sdm_cache gi with
  | Some l => deref (heap w) l
  | None => emptyObject
  end.

(** Its properties when [getCacheConfig] returns. *)
Definition populate (gi : GoalInvocation) (o : CacheBlock) : CacheBlock :=
  mkCacheBlock
    (Some (orString (bucket o) (defaultBucket gi)))
    (Some (orBool (enabled o) false))
    (Some (orString (path o) "goal-cache")).

Definition with_heap (h : gmap loc CacheBlock) (w : World) : World :=
  mkWorld h (cloud w) (clientLog w) (progressLog w).

(** Unfold the operations of the monad and run the primitive steps. *)
Ltac run_m :=
  unfold mbind, mret, M_bind, M_ret, get, assign, newObject, throw, tryCatch, ll;
  cbn -[fresh String.append].

Definition emptyBackend : Backend := mkBackend ∅ ∅ [] 0.

Definition emptyWorld : World := mkWorld ∅ emptyBackend [] [].

(** A world whose only object is [o], at location 0. *)
Definition worldWith (o : CacheBlock) : World :=
  mkWorld {[ 0 := o ]} emptyBackend [] [].

(** An invocation of workspace TH3BY4D5 whose cache block, if any, is
    [cache]. *)
Definition invocationOf (name : string) (cache : option loc) : GoalInvocation :=
  mkGoalInvocation name cache "TH3BY4D5" "100yearsfromnow" "YoureStillOnMyMind"
    "you-aint-goin-nowhere" "the-christian-life" "808eddb6016a45091e6d53f12ab8ca2d1cd7fb3e".

(** The bucket and the path prefix that [getCacheConfig] resolves for an
    invocation, and the world it leaves. *)
Definition bucketName (gi : GoalInvocation) (w : World) : string :=
  orString (bucket (cacheBefore gi w)) (defaultBucket gi).

Definition pathPrefix (gi : GoalInvocation) (w : World) : string :=
  orString (path (cacheBefore gi w)) "goal-cache".

Definition resolved (gi : GoalInvocation) (w : World) : World :=
  with_heap (<[cacheRef gi w := populate gi (cacheBefore gi w)]> (heap w)) w.

(** The world after one more log line. *)
Definition logged (l : Level) (msg : string) (w : World) : World :=
  mkWorld (heap w) (cloud w) (clientLog w ++ [(l, msg)]) (progressLog w ++ [msg]).

Definition objectUri (b key : string) : string := "gs://" +:+ b +:+ "/" +:+ key.

Definition startMessage (verb uri : string) : string :=
  replace finalE false "ing" verb +:+ " cache archive " +:+ uri.

Definition doneMessage (verb uri : string) : string := verb +:+ "d cache archive " +:+ uri.

Definition failureMessage (verb uri : string) (e : Error) : string :=
  "Failed to " +:+ verb +:+ " cache archive " +:+ uri +:+ ": " +:+ message e.

(** What [gcs] does once the configuration object [l], with bucket [b],
    and the object key are known: [n] is the number of retries. *)
Definition gcsFrom (n : nat) (l : loc) (b key : string) (op : GcsOp) (verb : string)
    (w : World) : Outcome unit * World :=
  let uri := objectUri b key in
  match retryLoop n (call l op newStorage key) (logged debug (startMessage verb uri) w) with
  | (Returned _, w') => (Returned tt, logged debug (doneMessage verb uri) w')
  | (Threw e, w') =>
      (if String.eqb verb "retrieve"
       then Threw (mkError (failureMessage verb uri e))
       else Returned tt,
       logged error (failureMessage verb uri e) w')
  end.

(** The object key of the revision of 2020. *)
Definition cachePath2020 (gi : GoalInvocation) (classifier : string) (w : World) : string :=
  join "/" [Some (pathPrefix gi w); Some classifier; Some "cache.tar.gz"].

(** The classifier with its placeholders replaced. *)
Definition classifierPath (gi : GoalInvocation) (classifier : string) : string :=
  replace (literal "${sha}") true (goalEvent_sha gi)
    (replace (literal "${branch}") true (goalEvent_branch gi)
       (replace (literal "${repo}") true (goalEvent_repo_name gi)
          (replace (literal "${owner}") true (goalEvent_repo_owner gi)
             (replace (literal "${providerId}") true (goalEvent_repo_providerId gi)
                classifier)))).

(** The object key of the revision of 2019. *)
Definition cachePath2019 (gi : GoalInvocation) (classifier : string) (w : World) : string :=
  join "/" [Some (pathPrefix gi w); Some (context_workspaceId gi);
            Some (classifierPath gi classifier); Some "cache.tar.gz"].

(** [failsTimes what k w e w']: starting in [w], [what] fails [k] times in
    a row, the last time with [e], leaving [w']. *)
Inductive failsTimes {A : Type} (what : M A) : nat -> World -> Error -> World -> Prop :=
| fails_once (w : World) (e : Error) (w' : World) :
    what w = (Threw e, w') -> failsTimes what 1 w e w'
| fails_again (k : nat) (w : World) (e0 : Error) (w0 : World) (e : Error) (w' : World) :
    what w = (Threw e0, w0) -> failsTimes what (S k) w0 e w' ->
    failsTimes what (S (S k)) w e w'.

(** [succeedsAfter what k w a w']: starting in [w], [what] fails [k]
    times in a row and then returns [a], leaving [w']. *)
Inductive succeedsAfter {A : Type} (what : M A) : nat -> World -> A -> World -> Prop :=
| succeeds_now (w : World) (a : A) (w' : World) :
    what w = (Returned a, w') -> succeedsAfter what 0 w a w'
| succeeds_later (k : nat) (w : World) (e0 : Error) (w0 : World) (a : A) (w' : World) :
    what w = (Threw e0, w0) -> succeedsAfter what k w0 a w' ->
    succeedsAfter what (S k) w a w'.

(** An operation [run], started in [w], makes its storage call [theCall]
    in the world [started].  When the call fails [attempts] times in a
    row, the operation throws the error with its message rewritten... *)
Definition Rethrows (run theCall : M unit) (attempts : nat) (verb uri : string)
    (started w : World) : Prop :=
  forall (e : Error) (w' : World),
    failsTimes theCall attempts started e w' ->
    run w = (Threw (mkError (failureMessage verb uri e)),
             logged error (failureMessage verb uri e) w').

(** ... or logs the rewritten message and returns... *)
Definition Swallows (run theCall : M unit) (attempts : nat) (verb uri : string)
    (started w : World) : Prop :=
  forall (e : Error) (w' : World),
    failsTimes theCall attempts started e w' ->
    run w = (Returned tt, logged error (failureMessage verb uri e) w').

(** ... and when one of the [attempts] first calls succeeds, it logs the
    completion and returns. *)
Definition Completes (run theCall : M unit) (attempts : nat) (verb uri : string)
    (started w : World) : Prop :=
  forall (k : nat) (w' : World),
    k < attempts ->
    succeedsAfter theCall k started tt w' ->
    run w = (Returned tt, logged debug (doneMessage verb uri) w').

(** The cache block of the tests, and an invocation that holds it. *)
Definition providedBlock : CacheBlock :=
  mkCacheBlock (Some "hickory-wind") (Some true) (Some "lazy/days").

Definition giProvided : GoalInvocation :=
  invocationOf "@byrds/sweetheart-of-the-rodeo" (Some 0).

Definition disks (w : World) : Storage.Disks := (objects (cloud w), files (cloud w)).

(** [op] is an operation whose call is the single request [actOf b key]. *)
Definition isRequestOp (op : GcsOp)
    (actOf : string -> string -> Storage.Disks -> Outcome unit * Storage.Disks) : Prop :=
  forall (l : loc) (key b : string) (w : World),
    bucket (deref (heap w) l) = Some b -> truthy b = true -> truthy key = true ->
    call l op newStorage key w = Storage.request (actOf b key) w.

Definition retrieveAct (file : string) (b key : string) := Storage.downloadAct (b, key) file.
Definition deleteAct (b key : string) := Storage.deleteAct (b, key).
Definition storeAct (acl : option string) (file : string) (b key : string) :=
  Storage.uploadAct b file (Storage.mkUploadOptions key acl false).

(** [gcsFrom] for an operation that is a single request. *)
Definition gcsReq (n : nat) (b key : string)
    (act : Storage.Disks -> Outcome unit * Storage.Disks) (verb : string) (w : World)
  : Outcome unit * World :=
  let uri := objectUri b key in
  match retryLoop n (Storage.request act) (logged debug (startMessage verb uri) w) with
  | (Returned _, w') => (Returned tt, logged debug (doneMessage verb uri) w')
  | (Threw e, w') =>
      (if String.eqb verb "retrieve"
       then Threw (mkError (failureMessage verb uri e))
       else Returned tt,
       logged error (failureMessage verb uri e) w')
  end.

(** A world that holds the cache block of the tests and the local file
    in.tgz, and whose storage fails the first request. *)
Definition flakyWorld : World :=
  mkWorld {[ 0 := providedBlock ]}
    (mkBackend ∅ {[ "in.tgz" := "Test junk" ]} [Some "ECONNRESET"] 0) [] [].

(** The scheduled faults at the head of the schedule, and in all of it. *)
Fixpoint leadingFaults (fs : list (option string)) : nat :=
  match fs with
  | Some _ :: r => S (leadingFaults r)
  | _ => 0
  end.

Fixpoint countFaults (fs : list (option string)) : nat :=
  match fs with
  | [] => 0
  | Some _ :: r => S (countFaults r)
  | None :: r => countFaults r
  end.

(** The operation has logged its completion. *)
Definition completed (verb uri : string) (w : World) : Prop :=
  last (clientLog w) = Some (debug, doneMessage verb uri).

(** The world after a request that leaves the objects and files [d]. *)
Definition afterRequest (w : World) (d : Storage.Disks) : World :=
  mkWorld (heap w)
    (mkBackend (fst d) (snd d) (tail (faults (cloud w))) (S (calls (cloud w))))
    (clientLog w) (progressLog w).

(** The round trip of an archive store whose three operations resolve the
    object [(bucketName, keyOf)] and make their request under a retry loop
    of [n] retries. *)
Definition RoundTrip (n : nat) (keyOf : GoalInvocation -> string -> World -> string)
    (store : GoalInvocation -> string -> string -> M unit)
    (retrieve : GoalInvocation -> string -> string -> M unit)
    (delete : GoalInvocation -> string -> M unit) : Prop :=
  forall (gi : GoalInvocation) (classifier src dst : string) (w : World),
    let object := (bucketName gi w, keyOf gi classifier w) in
    let uri := objectUri (fst object) (snd object) in
    let r1 := store gi classifier src w in
    let r2 := retrieve gi classifier dst (snd r1) in
    let r3 := delete gi classifier (snd r2) in
    (completed "store" uri (snd r1) -> fst r2 = Returned tt ->
     is_Some (files (cloud w) !! src) /\
     files (cloud (snd r2)) !! dst = files (cloud w) !! src) /\
    (completed "delete" uri (snd r3) ->
     objects (cloud (snd r3)) !! object = None /\
     Storage.exists_ (cloud (snd r3)) object = false) /\
    (forall content : string,
       files (cloud w) !! src = Some content ->
       countFaults (faults (cloud w)) <= n ->
       fst r1 = Returned tt /\ completed "store" uri (snd r1) /\
       objects (cloud (snd r1)) !! object = Some content /\
       fst r2 = Returned tt /\ files (cloud (snd r2)) !! dst = Some content /\
       fst r3 = Returned tt /\ completed "delete" uri (snd r3) /\
       objects (cloud (snd r3)) !! object = None).

(** The bucket and the path of the object that [getCacheConfig] returns. *)
Definition resolvedBucket (gi : GoalInvocation) (w : World) : option string :=
  match getCacheConfig gi w with
  | (Returned l, w') => bucket (deref (heap w') l)
  | (Threw _, _) => None
  end.

Definition resolvedPath (gi : GoalInvocation) (w : World) : option string :=
  match getCacheConfig gi w with
  | (Returned l, w') => path (deref (heap w') l)
  | (Threw _, _) => None
  end.

(** No bucket is configured, or an empty one. *)
Definition bucketUnset (gi : GoalInvocation) (w : World) : Prop :=
  bucket (cacheBefore gi w) = None \/ bucket (cacheBefore gi w) = Some "".

(** An operation [run] adds two lines to each log: the start message and
    then either the completion, at debug level, or the rewritten failure,
    at error level. *)
Definition TwoLines (run : M unit) (verb uri : string) (w : World) : Prop :=
  exists (lvl : Level) (msg : string),
    clientLog (snd (run w))
      = (clientLog w ++ [(debug, startMessage verb uri); (lvl, msg)])%list /\
    progressLog (snd (run w)) = (progressLog w ++ [startMessage verb uri; msg])%list /\
    ((lvl = debug /\ msg = doneMessage verb uri) \/
     (lvl = error /\ exists e, msg = failureMessage verb uri e)).

(** Whether the last unit of a string is [c], and the string without its
    last unit. *)
Fixpoint endsWith (c : ascii) (s : string) : bool :=
  match s with
  | EmptyString => false
  | String a EmptyString => Ascii.eqb a c
  | String _ r => endsWith c r
  end.

Fixpoint dropLast (s : string) : string :=
  match s with
  | EmptyString => EmptyString
  | String _ EmptyString => EmptyString
  | String a r => String a (dropLast r)
  end.

(** The operations of the archive store, over both revisions. *)
Inductive Revision : Type :=
| rev2020 (retries : nat)
| rev2019.

Inductive Operation : Type :=
| opStore (archivePath : string)
| opRetrieve (targetArchivePath : string)
| opDelete.

Definition runOp (r : Revision) (o : Operation) (gi : GoalInvocation) (classifier : string)
  : M unit :=
  match r, o with
  | rev2020 n, opStore f => V2020.store n gi classifier f
  | rev2020 n, opRetrieve f => V2020.retrieve n gi classifier f
  | rev2020 n, opDelete => V2020.delete n gi classifier
  | rev2019, opStore f => V2019.store gi classifier f
  | rev2019, opRetrieve f => V2019.retrieve gi classifier f
  | rev2019, opDelete => V2019.delete gi classifier
  end.

Definition verbOf (o : Operation) : string :=
  match o with
  | opStore _ => "store"
  | opRetrieve _ => "retrieve"
  | opDelete => "delete"
  end.

(** The retries that a revision makes: those of [doWithRetry], or none. *)
Definition retriesOf (r : Revision) : nat :=
  match r with
  | rev2020 n => n
  | rev2019 => 0
  end.

(** The object key that an operation of the revision resolves, run from
    the source: [getCachePath] on the resolved configuration object in the
    revision of 2020, on the invocation in the revision of 2019. *)
Definition resolvedKey (r : Revision) (gi : GoalInvocation) (classifier : string) (w : World)
  : Outcome string :=
  match r with
  | rev2020 _ =>
      fst ((cacheConfig ← getCacheConfig gi; V2020.getCachePath cacheConfig (Some classifier)) w)
  | rev2019 => fst (V2019.getCachePath gi (Some classifier) w)
  end.

Definition keyOf (r : Revision) (gi : GoalInvocation) (classifier : string) (w : World)
  : string :=
  match r with
  | rev2020 _ => cachePath2020 gi classifier w
  | rev2019 => cachePath2019 gi classifier w
  end.

(** The world in which the operation makes its storage call: the
    revision of 2019 resolves the configuration twice. *)
Definition resolvedFor (r : Revision) (gi : GoalInvocation) (w : World) : World :=
  match r with
  | rev2020 _ => resolved gi w
  | rev2019 => resolved gi (resolved gi w)
  end.

Definition actOf (r : Revision) (o : Operation) (b key : string)
  : Storage.Disks -> Outcome unit * Storage.Disks :=
  match o with
  | opStore f =>
      storeAct (match r with rev2020 _ => None | rev2019 => Some "projectPrivate" end) f b key
  | opRetrieve f => retrieveAct f b key
  | opDelete => deleteAct b key
  end.

(** The object that the operations on [gi] and [classifier] address. *)
Definition objectOf (r : Revision) (gi : GoalInvocation) (classifier : string) (w : World)
  : string * string :=
  (bucketName gi w, keyOf r gi classifier w).

(** What an operation may change in the storage and the local files. *)
Definition TouchesOnly (o : Operation) (object : string * string) (w w' : World) : Prop :=
  match o with
  | opStore _ =>
      files (cloud w') = files (cloud w) /\
      forall k, k <> object -> objects (cloud w') !! k = objects (cloud w) !! k
  | opRetrieve f =>
      objects (cloud w') = objects (cloud w) /\
      forall g, g <> f -> files (cloud w') !! g = files (cloud w) !! g
  | opDelete =>
      files (cloud w') = files (cloud w) /\
      forall k, k <> object -> objects (cloud w') !! k = objects (cloud w) !! k
  end.

(** What the operation needs to find: the local file for a store, the
    object for a retrieve or a delete. *)
Definition found (o : Operation) (object : string * string) (w : World) : bool :=
  match o with
  | opStore f => bool_decide (is_Some (files (cloud w) !! f))
  | opRetrieve _ | opDelete => bool_decide (is_Some (objects (cloud w) !! object))
  end.

(** The operation fails without effect: it makes every request of its
    budget, leaves the objects and the local files as they were, and logs
    the rewritten failure at error level. *)
Definition FailsCleanly (r : Revision) (o : Operation) (gi : GoalInvocation)
    (classifier : string) (w : World) (e : Error) : Prop :=
  let w' := snd (runOp r o gi classifier w) in
  let object := objectOf r gi classifier w in
  objects (cloud w') = objects (cloud w) /\
  files (cloud w') = files (cloud w) /\
  calls (cloud w') = calls (cloud w) + S (retriesOf r) /\
  last (clientLog w')
  = Some (error, failureMessage (verbOf o) (objectUri (fst object) (snd object)) e).

(** A world with the cache block of the tests, the local file in.tgz and
    one stored object at the key that the revision of 2020 resolves for
    the classifier c. *)
Definition stockedWorld : World :=
  mkWorld {[ 0 := providedBlock ]}
    (mkBackend {[ ("hickory-wind", "lazy/days/c/cache.tar.gz") := "Old junk" ]}
       {[ "in.tgz" := "Test junk" ]} [] 0) [] [].

(** A text without a dollar sign. *)
Definition notDollar (c : ascii) : bool := negb (Ascii.eqb c "$").

Definition noDollar (s : string) : bool := allUnits notDollar s.

(** The placeholders that the revision of 2019 replaces in a classifier,
    each with the property of the invocation that replaces it. *)
Definition placeholders (gi : GoalInvocation) : list (string * string) :=
  [("${providerId}", goalEvent_repo_providerId gi);
   ("${owner}", goalEvent_repo_owner gi);
   ("${repo}", goalEvent_repo_name gi);
   ("${branch}", goalEvent_branch gi);
   ("${sha}", goalEvent_sha gi)].

(** * Properties *)

(** ** The replacements of the bucket name *)

Lemma append_empty_l (s : string) : "" +:+ s = s.
Proof. reflexivity. Qed.

Lemma append_cons (c : ascii) (s t : string) : String c s +:+ t = String c (s +:+ t).
Proof. reflexivity. Qed.

Lemma replaceFrom_strip (s : string) : forall (pre : string) (k : nat),
  k <= spanLength notInClass s ->
  replaceFrom notInClassStar "" true pre k s = keep inClass s.
Proof.
  induction s as [|c r IH]; intros pre k Hk.
  - destruct k; reflexivity.
  - cbn [replaceFrom keep]. destruct k as [|k].
    + unfold notInClassStar at 1. cbn [spanLength]. unfold notInClass at 1.
      destruct (inClass c) eqn:Hc; cbn [negb expandReplacement].
      * rewrite append_empty_l. f_equal. apply IH. lia.
      * rewrite append_empty_l. apply IH. lia.
    + cbn [spanLength] in Hk. unfold notInClass at 1 in Hk.
      destruct (inClass c) eqn:Hc; cbn [negb] in Hk; [lia|].
      apply IH. lia.
Qed.

Lemma replace_strip (s : string) :
  replace notInClassStar true "" s = keep inClass s.
Proof. apply replaceFrom_strip. lia. Qed.

Lemma squeeze_run (r : string) :
  startsWithHyphen r = true ->
  squeeze r = String "-" (squeeze (drop (spanLength isHyphen r) r)).
Proof.
  induction r as [|c r IH]; [discriminate|].
  cbn [startsWithHyphen]. intros Hc. cbn [squeeze spanLength]. rewrite Hc.
  cbn [andb drop]. destruct (startsWithHyphen r) eqn:Hr.
  - apply IH. reflexivity.
  - destruct r as [|c' r'].
    + cbn. apply Ascii.eqb_eq in Hc. subst c. reflexivity.
    + cbn [startsWithHyphen] in Hr. cbn [spanLength]. rewrite Hr. cbn [drop].
      apply Ascii.eqb_eq in Hc. subst c. reflexivity.
Qed.

Lemma replaceFrom_squeeze (s : string) : forall (pre : string) (k : nat),
  k = 0 \/ (k = spanLength isHyphen s) ->
  replaceFrom hyphens2 "-" true pre k s = squeeze (drop k s).
Proof.
  induction s as [|c r IH]; intros pre k Hk.
  - destruct k; reflexivity.
  - destruct k as [|k].
    + cbn [replaceFrom drop squeeze]. unfold hyphens2 at 1.
      destruct r as [|c2 r2].
      * cbn. rewrite andb_false_r. reflexivity.
      * cbn [startsWithHyphen].
        destruct (isHyphen c && isHyphen c2) eqn:Hcc.
        -- apply andb_true_iff in Hcc as [Hc Hc2].
           change (2 + spanLength isHyphen r2) with (S (S (spanLength isHyphen r2))).
           cbn [expandReplacement].
           rewrite (IH _ (S (spanLength isHyphen r2))).
           2:{ right. cbn [spanLength]. rewrite Hc2. reflexivity. }
           rewrite (squeeze_run (String c2 r2)) by exact Hc2.
           cbn [spanLength]. rewrite Hc2. reflexivity.
        -- rewrite (IH _ 0) by (left; reflexivity). reflexivity.
    + destruct Hk as [Hk|Hk]; [discriminate|].
      cbn [replaceFrom drop]. cbn [spanLength] in Hk.
      destruct (isHyphen c); [|discriminate].
      apply IH. right. congruence.
Qed.

Lemma replace_squeeze (s : string) : replace hyphens2 true "-" s = squeeze s.
Proof. apply (replaceFrom_squeeze s "" 0). left. reflexivity. Qed.

Lemma keep_allUnits (p : ascii -> bool) (s : string) : allUnits p (keep p s) = true.
Proof.
  induction s as [|c r IH]; [reflexivity|].
  cbn [keep]. destruct (p c) eqn:Hc; [|exact IH].
  cbn [allUnits]. rewrite Hc, IH. reflexivity.
Qed.

Lemma squeeze_allUnits (p : ascii -> bool) (s : string) :
  allUnits p s = true -> allUnits p (squeeze s) = true.
Proof.
  induction s as [|c r IH]; [reflexivity|].
  cbn [allUnits squeeze]. intros [Hc Hr]%andb_true_iff.
  destruct (isHyphen c && startsWithHyphen r); [auto|].
  cbn [allUnits]. rewrite Hc, IH; auto.
Qed.

Lemma squeeze_starts (s : string) : startsWithHyphen (squeeze s) = startsWithHyphen s.
Proof.
  induction s as [|c r IH]; [reflexivity|].
  cbn [squeeze startsWithHyphen].
  destruct (isHyphen c) eqn:Hc; cbn [andb]; [|cbn; exact Hc].
  destruct (startsWithHyphen r) eqn:Hr; [congruence|cbn; exact Hc].
Qed.

Lemma squeeze_noHyphenPair (s : string) : noHyphenPair (squeeze s) = true.
Proof.
  induction s as [|c r IH]; [reflexivity|].
  cbn [squeeze]. destruct (isHyphen c && startsWithHyphen r) eqn:Hcc; [exact IH|].
  cbn [noHyphenPair]. rewrite squeeze_starts, Hcc, IH. reflexivity.
Qed.

(** ** What getCacheConfig computes *)

Lemma fresh_unused (h : gmap loc CacheBlock) : h !! fresh (dom h) = None.
Proof. apply not_elem_of_dom. apply is_fresh. Qed.

Lemma getCacheConfig_run (gi : GoalInvocation) (w : World) :
  getCacheConfig gi w =
  (Returned (cacheRef gi w),
   with_heap (<[cacheRef gi w := populate gi (cacheBefore gi w)]> (heap w)) w).
Proof.
  unfold getCacheConfig, cacheRef, cacheBefore, with_heap.
  destruct (configuration_sdm_cache gi) as [l|]; run_m;
    unfold deref; rewrite ?lookup_insert_eq, ?insert_insert_eq; cbn -[fresh];
    rewrite ?fresh_unused; reflexivity.
Qed.

Lemma toLowerCase_app (s t : string) :
  toLowerCase (s +:+ t) = toLowerCase s +:+ toLowerCase t.
Proof.
  induction s as [|c r IH]; [reflexivity|].
  rewrite append_cons. cbn [toLowerCase]. rewrite append_cons, IH. reflexivity.
Qed.

Lemma defaultBucket_squeeze (gi : GoalInvocation) :
  defaultBucket gi =
  squeeze (keep inClass (toLowerCase
    ("sdm-" +:+ context_workspaceId gi +:+ "-" +:+ configuration_name gi +:+ "-goal-cache"))).
Proof. unfold defaultBucket. rewrite replace_strip, replace_squeeze. reflexivity. Qed.

Lemma defaultBucket_truthy (gi : GoalInvocation) : truthy (defaultBucket gi) = true.
Proof.
  rewrite defaultBucket_squeeze, toLowerCase_app.
  change (toLowerCase "sdm-") with "sdm-". rewrite !append_cons. reflexivity.
Qed.

Lemma truthy_nonempty (s : string) : truthy s = true <-> s <> "".
Proof. destruct s; cbn; split; congruence. Qed.

Lemma orString_truthy (s d : string) : s <> "" -> orString (Some s) d = s.
Proof. intros H. apply truthy_nonempty in H. unfold orString. rewrite H. reflexivity. Qed.

Lemma populate_populate (gi gi' : GoalInvocation) (o : CacheBlock) :
  populate gi' (populate gi o) = populate gi o.
Proof.
  unfold populate. cbn.
  assert (Hb : truthy (orString (bucket o) (defaultBucket gi)) = true).
  { unfold orString. destruct (bucket o) as [b|]; [|apply defaultBucket_truthy].
    destruct (truthy b) eqn:Hb; [exact Hb|apply defaultBucket_truthy]. }
  assert (Hp : truthy (orString (path o) "goal-cache") = true).
  { unfold orString. destruct (path o) as [p|]; [|reflexivity].
    destruct (truthy p) eqn:Hp; [exact Hp|reflexivity]. }
  rewrite Hb, Hp. f_equal. f_equal. unfold orBool.
  destruct (enabled o) as [[|]|]; reflexivity.
Qed.

Lemma with_heap_id (w : World) : with_heap (heap w) w = w.
Proof. destruct w; reflexivity. Qed.

(** ** Configuration resolution *)

(** C7: with workspace TH3BY4D5, application name sweetheart-of-the-rodeo
    and no cache block, getCacheConfig returns exactly the object with
    bucket sdm-th3by4d5-sweetheart-of-the-rodeo-goal-cache, enabled false
    and path goal-cache. *)
Theorem getCacheConfig_default_config :
  forall (w : World) (providerId owner repo branch sha : string),
    let gi := mkGoalInvocation "sweetheart-of-the-rodeo" None "TH3BY4D5"
                providerId owner repo branch sha in
    exists l w',
      getCacheConfig gi w = (Returned l, w') /\
      heap w' !! l =
        Some (mkCacheBlock (Some "sdm-th3by4d5-sweetheart-of-the-rodeo-goal-cache")
                (Some false) (Some "goal-cache")).
Proof.
  intros w providerId owner repo branch sha gi.
  rewrite getCacheConfig_run. eexists _, _. split; [reflexivity|].
  cbn -[fresh]. rewrite lookup_insert_eq. f_equal.
Qed.

(** C3: when no bucket is configured, the bucket that getCacheConfig
    gives is the text sdm-<workspaceId>-<appName>-goal-cache
    (prefix, workspace identifier, a hyphen, application name, suffix) in
    lower case, without the characters other than a-z, 0-9 and the hyphen,
    and with every run of hyphens squeezed to one hyphen; the application
    name @Sweetheart/of--the-Rodeo- in workspace TH3BY4D5 gives
    sdm-th3by4d5-sweetheartof-the-rodeo-goal-cache. *)
Theorem getCacheConfig_bucket_default :
  (forall (gi : GoalInvocation) (w : World),
     bucket (cacheBefore gi w) = None ->
     exists l w' b,
       getCacheConfig gi w = (Returned l, w') /\
       bucket (deref (heap w') l) = Some b /\
       b = squeeze (keep inClass (toLowerCase
             ("sdm-" +:+ context_workspaceId gi +:+ "-" +:+ configuration_name gi
              +:+ "-goal-cache"))) /\
       allUnits inClass b = true /\
       noHyphenPair b = true) /\
  (forall (w : World) (providerId owner repo branch sha : string),
     let gi := mkGoalInvocation "@Sweetheart/of--the-Rodeo-" None "TH3BY4D5"
                 providerId owner repo branch sha in
     exists l w',
       getCacheConfig gi w = (Returned l, w') /\
       bucket (deref (heap w') l) = Some "sdm-th3by4d5-sweetheartof-the-rodeo-goal-cache").
Proof.
  split.
  - intros gi w Hb. rewrite getCacheConfig_run. eexists _, _, _.
    split; [reflexivity|]. unfold deref. cbn -[fresh]. rewrite lookup_insert_eq.
    cbn -[fresh]. rewrite Hb. cbn. repeat split.
    + f_equal. apply defaultBucket_squeeze.
    + rewrite defaultBucket_squeeze. apply squeeze_allUnits, keep_allUnits.
    + rewrite defaultBucket_squeeze. apply squeeze_noHyphenPair.
  - intros w providerId owner repo branch sha gi.
    rewrite getCacheConfig_run. eexists _, _. split; [reflexivity|].
    unfold deref. cbn -[fresh]. rewrite lookup_insert_eq. reflexivity.
Qed.

Lemma getCacheConfig_bucket_default_witness :
  bucket (cacheBefore (invocationOf "a" (Some 0))
            (worldWith (mkCacheBlock None (Some true) None))) = None /\
  exists l w' b,
    getCacheConfig (invocationOf "a" (Some 0))
      (worldWith (mkCacheBlock None (Some true) None)) = (Returned l, w') /\
    bucket (deref (heap w') l) = Some b /\
    b = squeeze (keep inClass (toLowerCase
          ("sdm-" +:+ "TH3BY4D5" +:+ "-" +:+ "a" +:+ "-goal-cache"))) /\
    allUnits inClass b = true /\
    noHyphenPair b = true.
Proof.
  split; [reflexivity|].
  apply (proj1 getCacheConfig_bucket_default (invocationOf "a" (Some 0))). reflexivity.
Defined.

(** C10: defaulting goes by falsiness.  For a cache block that supplies
    the empty string as bucket, getCacheConfig puts the computed default
    bucket in its place, and for one that supplies the empty string as
    path it puts goal-cache; a supplied enabled of false stays false. *)
Theorem getCacheConfig_falsy_defaults :
  forall (gi : GoalInvocation) (w : World) (l : loc) (o : CacheBlock),
    configuration_sdm_cache gi = Some l ->
    heap w !! l = Some o ->
    exists w' o',
      getCacheConfig gi w = (Returned l, w') /\
      heap w' !! l = Some o' /\
      (bucket o = Some "" -> bucket o' = Some (defaultBucket gi) /\ bucket o' <> bucket o) /\
      (path o = Some "" -> path o' = Some "goal-cache" /\ path o' <> path o) /\
      (enabled o = Some false -> enabled o' = Some false).
Proof.
  intros gi w l o Hl Ho. rewrite getCacheConfig_run.
  unfold cacheRef, cacheBefore, deref. rewrite Hl, Ho. cbn.
  eexists _, _. split; [reflexivity|]. cbn. rewrite lookup_insert_eq.
  split; [reflexivity|]. cbn. split; [|split].
  - intros Hb. rewrite Hb. cbn. split; [reflexivity|].
    intros Hd. pose proof (defaultBucket_truthy gi) as Ht.
    replace (defaultBucket gi) with "" in Ht by congruence. discriminate.
  - intros Hp. rewrite Hp. cbn. split; [reflexivity|discriminate].
  - intros He. rewrite He. reflexivity.
Qed.

Lemma getCacheConfig_falsy_defaults_witness :
  exists w' o',
    getCacheConfig (invocationOf "a" (Some 0)) (worldWith (mkCacheBlock (Some "") (Some false) (Some "")))
      = (Returned 0, w') /\
    heap w' !! 0 = Some o' /\
    bucket o' = Some "sdm-th3by4d5-a-goal-cache" /\
    path o' = Some "goal-cache" /\
    enabled o' = Some false.
Proof.
  destruct (getCacheConfig_falsy_defaults (invocationOf "a" (Some 0))
              (worldWith (mkCacheBlock (Some "") (Some false) (Some ""))) 0
              (mkCacheBlock (Some "") (Some false) (Some "")) eq_refl eq_refl)
    as (w' & o' & Hrun & Ho' & Hb & Hp & He).
  exists w', o'. split; [exact Hrun|]. split; [exact Ho'|].
  split; [exact (proj1 (Hb eq_refl))|]. split; [exact (proj1 (Hp eq_refl))|exact (He eq_refl)].
Defined.

(** C4, as stated, fails: a supplied bucket that is the empty string is
    not returned unchanged. *)
Lemma getCacheConfig_replaces_empty_bucket :
  let o := mkCacheBlock (Some "") (Some true) (Some "lazy/days") in
  let gi := invocationOf "@byrds/sweetheart-of-the-rodeo" (Some 0) in
  heap (worldWith o) !! 0 = Some o /\
  fst (getCacheConfig gi (worldWith o)) = Returned 0 /\
  bucket (deref (heap (snd (getCacheConfig gi (worldWith o)))) 0)
    = Some "sdm-th3by4d5-byrdssweetheart-of-the-rodeo-goal-cache" /\
  bucket (deref (heap (snd (getCacheConfig gi (worldWith o)))) 0) <> bucket o.
Proof.
  cbv zeta. rewrite getCacheConfig_run. unfold deref. cbn.
  rewrite !lookup_insert_eq. cbn. repeat split. discriminate.
Qed.

(** C4, amended: every supplied bucket or path that is not the empty
    string, and every supplied enabled, is returned unchanged; a field
    that is missing, and a bucket or a path that is the empty string, gets
    its default whatever the other fields are; the block with bucket
    hickory-wind, enabled true and path lazy/days comes back as it is. *)
Theorem getCacheConfig_keeps_supplied :
  forall (gi : GoalInvocation) (w : World) (l : loc) (o : CacheBlock),
    configuration_sdm_cache gi = Some l ->
    heap w !! l = Some o ->
    exists w' o',
      getCacheConfig gi w = (Returned l, w') /\
      heap w' !! l = Some o' /\
      (forall b, bucket o = Some b -> b <> "" -> bucket o' = Some b) /\
      (forall e, enabled o = Some e -> enabled o' = Some e) /\
      (forall p, path o = Some p -> p <> "" -> path o' = Some p) /\
      (bucket o = None -> bucket o' = Some (defaultBucket gi)) /\
      (enabled o = None -> enabled o' = Some false) /\
      (path o = None -> path o' = Some "goal-cache") /\
      (bucket o = Some "" -> bucket o' = Some (defaultBucket gi)) /\
      (path o = Some "" -> path o' = Some "goal-cache") /\
      (o = mkCacheBlock (Some "hickory-wind") (Some true) (Some "lazy/days") ->
       o' = o /\ w' = w).
Proof.
  intros gi w l o Hl Ho. rewrite getCacheConfig_run.
  unfold cacheRef, cacheBefore, deref. rewrite Hl, Ho. cbn.
  eexists _, _. split; [reflexivity|]. cbn. rewrite lookup_insert_eq.
  split; [reflexivity|]. cbn. repeat split.
  - intros b Hb Hne. rewrite Hb, orString_truthy by exact Hne. reflexivity.
  - intros e He. rewrite He. destruct e; reflexivity.
  - intros p Hp Hne. rewrite Hp, orString_truthy by exact Hne. reflexivity.
  - intros ->. reflexivity.
  - intros ->. reflexivity.
  - intros ->. reflexivity.
  - intros ->. reflexivity.
  - intros ->. reflexivity.
  - subst o. reflexivity.
  - subst o. cbn. unfold with_heap. rewrite insert_id by exact Ho.
    destruct w; reflexivity.
Qed.

Lemma getCacheConfig_keeps_supplied_witness :
  getCacheConfig (invocationOf "@byrds/sweetheart-of-the-rodeo" (Some 0))
    (worldWith (mkCacheBlock (Some "hickory-wind") (Some true) (Some "lazy/days")))
  = (Returned 0, worldWith (mkCacheBlock (Some "hickory-wind") (Some true) (Some "lazy/days")))
  /\
  exists w',
    getCacheConfig (invocationOf "@byrds/sweetheart-of-the-rodeo" (Some 0))
      (worldWith (mkCacheBlock (Some "") (Some true) (Some ""))) = (Returned 0, w') /\
    heap w' !! 0
    = Some (mkCacheBlock (Some "sdm-th3by4d5-byrdssweetheart-of-the-rodeo-goal-cache")
              (Some true) (Some "goal-cache")).
Proof.
  split.
  - destruct (getCacheConfig_keeps_supplied
                (invocationOf "@byrds/sweetheart-of-the-rodeo" (Some 0))
                (worldWith (mkCacheBlock (Some "hickory-wind") (Some true) (Some "lazy/days")))
                0 (mkCacheBlock (Some "hickory-wind") (Some true) (Some "lazy/days"))
                eq_refl eq_refl)
      as (w' & o' & Hrun & _ & _ & _ & _ & _ & _ & _ & _ & _ & Hsame).
    destruct (Hsame eq_refl) as [_ Hw]. rewrite Hrun, Hw. reflexivity.
  - destruct (getCacheConfig_keeps_supplied
                (invocationOf "@byrds/sweetheart-of-the-rodeo" (Some 0))
                (worldWith (mkCacheBlock (Some "") (Some true) (Some "")))
                0 (mkCacheBlock (Some "") (Some true) (Some ""))
                eq_refl eq_refl)
      as (w' & o' & Hrun & Ho' & _ & He & _ & _ & _ & _ & Hb & Hp & _).
    exists w'. split; [exact Hrun|]. refine (eq_trans Ho' _).
    specialize (He true eq_refl). specialize (Hb eq_refl). specialize (Hp eq_refl).
    destruct o' as [b' e' p']. cbn in He, Hb, Hp. rewrite He, Hb, Hp. reflexivity.
Defined.

(** C8: getCacheConfig succeeds on every input; a configuration that is
    fully specified (a cache block with bucket, enabled and path all
    present, bucket and path being names, so not empty) is returned
    unchanged; and getCacheConfig applied to its own output is the
    identity: resolving the object that getCacheConfig returned, for any
    invocation that holds it, changes nothing and returns the same
    object. *)
Theorem getCacheConfig_total_idempotent :
  (forall (gi : GoalInvocation) (w : World),
     exists l w', getCacheConfig gi w = (Returned l, w')) /\
  (forall (gi : GoalInvocation) (w : World) (l : loc) (b p : string) (e : bool),
     configuration_sdm_cache gi = Some l ->
     heap w !! l = Some (mkCacheBlock (Some b) (Some e) (Some p)) ->
     b <> "" -> p <> "" ->
     getCacheConfig gi w = (Returned l, w)) /\
  (forall (gi gi' : GoalInvocation) (w w' : World) (l : loc),
     getCacheConfig gi w = (Returned l, w') ->
     configuration_sdm_cache gi' = Some l ->
     getCacheConfig gi' w' = (Returned l, w')).
Proof.
  split; [|split].
  - intros gi w. rewrite getCacheConfig_run. eauto.
  - intros gi w l b p e Hl Ho Hb Hp. rewrite getCacheConfig_run.
    unfold cacheRef, cacheBefore, deref, populate. rewrite Hl, Ho.
    cbn -[orString orBool defaultBucket].
    rewrite !orString_truthy by assumption.
    replace (orBool (Some e) false) with e by (destruct e; reflexivity).
    rewrite insert_id by exact Ho. rewrite with_heap_id. reflexivity.
  - intros gi gi' w w' l Hrun Hl'. rewrite getCacheConfig_run in Hrun.
    injection Hrun as Hl Hw. rewrite getCacheConfig_run.
    assert (Href : cacheRef gi' w' = l) by (unfold cacheRef; rewrite Hl'; reflexivity).
    assert (Hbefore : cacheBefore gi' w' = populate gi (cacheBefore gi w)).
    { unfold cacheBefore at 1, deref. rewrite Hl', <- Hw, <- Hl. cbn.
      rewrite lookup_insert_eq. reflexivity. }
    rewrite Href, Hbefore, populate_populate. f_equal.
    clear Href Hbefore. subst w'. unfold with_heap. cbn.
    rewrite Hl, insert_insert_eq. reflexivity.
Qed.

Lemma getCacheConfig_total_idempotent_witness :
  getCacheConfig (invocationOf "a" (Some 0))
    (worldWith (mkCacheBlock (Some "hickory-wind") (Some false) (Some "lazy/days")))
  = (Returned 0, worldWith (mkCacheBlock (Some "hickory-wind") (Some false) (Some "lazy/days")))
  /\
  getCacheConfig (invocationOf "b" (Some 0))
    (snd (getCacheConfig (invocationOf "a" (Some 0)) (worldWith emptyObject)))
  = (Returned 0, snd (getCacheConfig (invocationOf "a" (Some 0)) (worldWith emptyObject))).
Proof.
  destruct getCacheConfig_total_idempotent as (_ & Hfull & Hidem). split.
  - apply (Hfull _ _ 0 "hickory-wind" "lazy/days" false); [reflexivity|reflexivity| |];
      discriminate.
  - apply (Hidem (invocationOf "a" (Some 0)) _ (worldWith emptyObject)); [|reflexivity].
    rewrite getCacheConfig_run. reflexivity.
Defined.

(** C5, as stated, fails: getCacheConfig writes the defaults into the
    cache block of the invocation, and what it returns is that block, not
    a new object. *)
Lemma getCacheConfig_writes_cache_block :
  let o := mkCacheBlock None (Some true) None in
  let gi := invocationOf "sweetheart-of-the-rodeo" (Some 0) in
  heap (worldWith o) !! 0 = Some o /\
  fst (getCacheConfig gi (worldWith o)) = Returned 0 /\
  heap (snd (getCacheConfig gi (worldWith o))) !! 0
    = Some (mkCacheBlock (Some "sdm-th3by4d5-sweetheart-of-the-rodeo-goal-cache")
              (Some true) (Some "goal-cache")) /\
  heap (snd (getCacheConfig gi (worldWith o))) !! 0 <> heap (worldWith o) !! 0.
Proof.
  cbv zeta. rewrite getCacheConfig_run. cbn. rewrite !lookup_insert_eq.
  repeat split. discriminate.
Qed.

(** C5, amended: getCacheConfig never fails and touches neither the
    storage nor the logs nor any object but the one it returns.  Without
    a cache block in the invocation that object is new, so nothing that
    existed is modified.  With a cache block it is that very block, which
    is populated in place: each call returns the same shared object. *)
Theorem getCacheConfig_effect :
  forall (gi : GoalInvocation) (w : World),
    exists l w',
      getCacheConfig gi w = (Returned l, w') /\
      cloud w' = cloud w /\ clientLog w' = clientLog w /\ progressLog w' = progressLog w /\
      (forall l', l' <> l -> heap w' !! l' = heap w !! l') /\
      heap w' !! l = Some (populate gi (cacheBefore gi w)) /\
      match configuration_sdm_cache gi with
      | None => heap w !! l = None
      | Some l0 => l = l0
      end.
Proof.
  intros gi w. rewrite getCacheConfig_run. eexists _, _. split; [reflexivity|].
  cbn -[fresh]. repeat split.
  - intros l' Hl'. apply lookup_insert_ne. congruence.
  - apply lookup_insert_eq.
  - unfold cacheRef. destruct (configuration_sdm_cache gi); [reflexivity|].
    apply fresh_unused.
Qed.

(** ** The archive store *)

Lemma retryLoop_0 {A : Type} (what : M A) (w : World) : retryLoop 0 what w = what w.
Proof. cbn. destruct (what w) as [[a|e] w']; reflexivity. Qed.

Lemma deref_resolved (gi : GoalInvocation) (w : World) :
  deref (heap (resolved gi w)) (cacheRef gi w) = populate gi (cacheBefore gi w).
Proof. unfold deref, resolved. cbn -[fresh]. rewrite lookup_insert_eq. reflexivity. Qed.

Lemma orString_idem (a : option string) (d d' : string) :
  truthy d = true -> orString (Some (orString a d)) d' = orString a d.
Proof.
  intros Hd. unfold orString. destruct a as [s|].
  - destruct (truthy s) eqn:Hs; [rewrite Hs|rewrite Hd]; reflexivity.
  - rewrite Hd. reflexivity.
Qed.

(** Resolving the configuration does not change what it resolves to. *)
Lemma cacheBefore_resolved (gi : GoalInvocation) (w w' : World) :
  heap w' !! cacheRef gi w = Some (populate gi (cacheBefore gi w)) ->
  bucketName gi w' = bucketName gi w /\ pathPrefix gi w' = pathPrefix gi w.
Proof.
  unfold bucketName, pathPrefix, cacheBefore, cacheRef, deref.
  destruct (configuration_sdm_cache gi) as [l|]; [|split; reflexivity].
  intros ->. cbn -[orString]. split; apply orString_idem.
  - apply defaultBucket_truthy.
  - reflexivity.
Qed.

Lemma heap_resolved (gi : GoalInvocation) (w : World) :
  heap (resolved gi w) !! cacheRef gi w = Some (populate gi (cacheBefore gi w)).
Proof. unfold resolved. cbn -[fresh]. apply lookup_insert_eq. Qed.

Lemma bucketName_truthy (gi : GoalInvocation) (w : World) : truthy (bucketName gi w) = true.
Proof.
  unfold bucketName, orString. destruct (bucket (cacheBefore gi w)) as [b|].
  - destruct (truthy b) eqn:Hb; [exact Hb|apply defaultBucket_truthy].
  - apply defaultBucket_truthy.
Qed.

Lemma pathPrefix_truthy (gi : GoalInvocation) (w : World) : truthy (pathPrefix gi w) = true.
Proof.
  unfold pathPrefix, orString. destruct (path (cacheBefore gi w)) as [b|]; [|reflexivity].
  destruct (truthy b) eqn:Hb; [exact Hb|reflexivity].
Qed.

Lemma populate_bucket (gi : GoalInvocation) (w : World) :
  bucket (populate gi (cacheBefore gi w)) = Some (bucketName gi w).
Proof. reflexivity. Qed.

Lemma populate_path (gi : GoalInvocation) (w : World) :
  path (populate gi (cacheBefore gi w)) = Some (pathPrefix gi w).
Proof. reflexivity. Qed.

Lemma gcs2020_run (retries : nat) (gi : GoalInvocation) (classifier : string) (op : GcsOp)
    (verb : string) (w : World) :
  V2020.gcs retries gi classifier op verb w =
  gcsFrom retries (cacheRef gi w) (bucketName gi w) (cachePath2020 gi classifier w) op verb
    (resolved gi w).
Proof.
  unfold V2020.gcs, V2020.getCachePath.
  cbv [mbind M_bind mret M_ret get tryCatch throw doWithRetry].
  rewrite getCacheConfig_run. fold (resolved gi w). cbv beta iota.
  rewrite deref_resolved, populate_bucket, populate_path.
  unfold gcsFrom, ll, template, logged, startMessage, doneMessage, failureMessage,
    objectUri, cachePath2020.
  cbn [default from_option id heap cloud clientLog progressLog message].
  destruct (retryLoop retries _ _) as [[[]|e] w']; [reflexivity|].
  destruct (String.eqb verb "retrieve"); reflexivity.
Qed.

Lemma deref_resolved_twice (gi : GoalInvocation) (w : World) :
  deref (heap (resolved gi (resolved gi w))) (cacheRef gi w) = populate gi (cacheBefore gi w).
Proof.
  unfold deref. unfold resolved at 1. cbn -[fresh].
  destruct (decide (cacheRef gi (resolved gi w) = cacheRef gi w)) as [Heq|Hne].
  - rewrite Heq, lookup_insert_eq. cbn.
    destruct (configuration_sdm_cache gi) as [l|] eqn:Hl.
    + unfold cacheBefore at 1. rewrite Hl. fold (cacheRef gi w) in Heq.
      replace l with (cacheRef gi w) by (unfold cacheRef; rewrite Hl; reflexivity).
      rewrite deref_resolved. apply populate_populate.
    + unfold cacheBefore. rewrite Hl. reflexivity.
  - rewrite lookup_insert_ne by exact Hne. rewrite heap_resolved. reflexivity.
Qed.

Lemma getCachePath2019_run (gi : GoalInvocation) (classifier : string) (w : World) :
  V2019.getCachePath gi (Some classifier) w =
  (Returned (cachePath2019 gi classifier w), resolved gi w).
Proof.
  unfold V2019.getCachePath. cbv [mbind M_bind mret M_ret get].
  rewrite getCacheConfig_run. fold (resolved gi w). cbv beta iota.
  rewrite deref_resolved, populate_path. reflexivity.
Qed.

Lemma gcs2019_run (gi : GoalInvocation) (classifier : string) (op : GcsOp)
    (verb : string) (w : World) :
  V2019.gcs gi classifier op verb w =
  gcsFrom 0 (cacheRef gi w) (bucketName gi w) (cachePath2019 gi classifier w) op verb
    (resolved gi (resolved gi w)).
Proof.
  unfold V2019.gcs.
  cbv [mbind M_bind mret M_ret get tryCatch throw].
  rewrite getCacheConfig_run. fold (resolved gi w). cbv beta iota.
  rewrite getCachePath2019_run.
  destruct (cacheBefore_resolved gi w (resolved gi w) (heap_resolved gi w)) as [_ Hp].
  assert (Hk : cachePath2019 gi classifier (resolved gi w) = cachePath2019 gi classifier w)
    by (unfold cachePath2019; rewrite Hp; reflexivity).
  rewrite Hk. clear Hk Hp.
  rewrite deref_resolved_twice, populate_bucket.
  unfold gcsFrom. rewrite retryLoop_0.
  unfold ll, template, logged, startMessage, doneMessage, failureMessage, objectUri.
  cbn [default from_option id heap cloud clientLog progressLog message].
  destruct (call _ _ _ _ _) as [[[]|e] w']; [reflexivity|].
  destruct (String.eqb verb "retrieve"); reflexivity.
Qed.

(** ** Attempts *)

Lemma retryLoop_threw {A : Type} (what : M A) (n : nat) :
  forall (w : World) (e : Error) (w' : World),
    retryLoop n what w = (Threw e, w') <-> failsTimes what (S n) w e w'.
Proof.
  induction n as [|n IH]; intros w e w'; cbn [retryLoop].
  - destruct (what w) as [[a|e0] w0] eqn:Hw; split.
    + discriminate.
    + intros H. inversion H; congruence.
    + intros [= -> ->]. apply fails_once. exact Hw.
    + intros H. inversion H; congruence.
  - destruct (what w) as [[a|e0] w0] eqn:Hw; split.
    + discriminate.
    + intros H. inversion H; congruence.
    + intros H. eapply fails_again; [exact Hw|]. apply IH. exact H.
    + intros H. inversion H as [|k w1 e1 w2 e2 w3 Hfirst Hrest]; subst.
      rewrite Hw in Hfirst. injection Hfirst as <- <-. apply IH. exact Hrest.
Qed.

Lemma retryLoop_returned {A : Type} (what : M A) (n : nat) :
  forall (w : World) (a : A) (w' : World),
    retryLoop n what w = (Returned a, w') <->
    exists k, k <= n /\ succeedsAfter what k w a w'.
Proof.
  induction n as [|n IH]; intros w a w'; cbn [retryLoop].
  - destruct (what w) as [[a0|e0] w0] eqn:Hw; split.
    + intros [= -> ->]. exists 0. split; [lia|]. apply succeeds_now. exact Hw.
    + intros (k & Hk & H). inversion H; subst; [congruence|lia].
    + discriminate.
    + intros (k & Hk & H). inversion H; subst; [congruence|lia].
  - destruct (what w) as [[a0|e0] w0] eqn:Hw; split.
    + intros [= -> ->]. exists 0. split; [lia|]. apply succeeds_now. exact Hw.
    + intros (k & Hk & H). inversion H; subst; congruence.
    + intros H. apply IH in H as (k & Hk & H). exists (S k). split; [lia|].
      eapply succeeds_later; [exact Hw|exact H].
    + intros (k & Hk & H). inversion H as [|k' w1 e1 w2 a2 w3 Hfirst Hrest]; subst.
      * congruence.
      * rewrite Hw in Hfirst. injection Hfirst as <- <-. apply IH.
        exists k'. split; [lia|exact Hrest].
Qed.

(** Every run of the retry loop ends in one of the two ways, after at
    most [n] retries. *)
Lemma retryLoop_bounded {A : Type} (what : M A) (n : nat) (w : World) :
  (exists k a w', k <= n /\ succeedsAfter what k w a w' /\
                  retryLoop n what w = (Returned a, w')) \/
  (exists e w', failsTimes what (S n) w e w' /\ retryLoop n what w = (Threw e, w')).
Proof.
  destruct (retryLoop n what w) as [[a|e] w'] eqn:Hrun.
  - left. apply retryLoop_returned in Hrun as (k & Hk & H). eauto 8.
  - right. apply retryLoop_threw in Hrun. eauto.
Qed.

Lemma gcsFrom_threw (n : nat) (l : loc) (b key : string) (op : GcsOp) (verb : string)
    (w : World) (e : Error) (w' : World) :
  failsTimes (call l op newStorage key) (S n)
    (logged debug (startMessage verb (objectUri b key)) w) e w' ->
  gcsFrom n l b key op verb w =
  (if String.eqb verb "retrieve"
   then Threw (mkError (failureMessage verb (objectUri b key) e))
   else Returned tt,
   logged error (failureMessage verb (objectUri b key) e) w').
Proof.
  intros H. apply retryLoop_threw in H. unfold gcsFrom. rewrite H. reflexivity.
Qed.

Lemma gcsFrom_returned (n : nat) (l : loc) (b key : string) (op : GcsOp) (verb : string)
    (w : World) (k : nat) (w' : World) :
  k <= n ->
  succeedsAfter (call l op newStorage key) k
    (logged debug (startMessage verb (objectUri b key)) w) tt w' ->
  gcsFrom n l b key op verb w =
  (Returned tt, logged debug (doneMessage verb (objectUri b key)) w').
Proof.
  intros Hk H. unfold gcsFrom.
  rewrite (proj2 (retryLoop_returned _ n _ tt w')) by eauto. reflexivity.
Qed.

(** ** Failure propagation *)

(** C1: in both revisions, when the storage call of an operation fails
    on every attempt, retrieve throws an error whose message is
    Failed to retrieve cache archive <uri>: <original message>, while
    store and delete log the rewritten message and return; when an attempt
    succeeds, all three operations return. *)
Theorem archive_store_failure_policy :
  forall (retries : nat) (gi : GoalInvocation) (classifier file : string) (w : World),
    (let l := cacheRef gi w in
     let key := cachePath2020 gi classifier w in
     let uri := objectUri (bucketName gi w) key in
     let started verb := logged debug (startMessage verb uri) (resolved gi w) in
     Rethrows (V2020.retrieve retries gi classifier file)
       (call l (retrieveOp file) newStorage key) (S retries) "retrieve" uri
       (started "retrieve") w /\
     Swallows (V2020.store retries gi classifier file)
       (call l (V2020.storeOp file) newStorage key) (S retries) "store" uri
       (started "store") w /\
     Swallows (V2020.delete retries gi classifier)
       (call l deleteOp newStorage key) (S retries) "delete" uri (started "delete") w /\
     Completes (V2020.retrieve retries gi classifier file)
       (call l (retrieveOp file) newStorage key) (S retries) "retrieve" uri
       (started "retrieve") w /\
     Completes (V2020.store retries gi classifier file)
       (call l (V2020.storeOp file) newStorage key) (S retries) "store" uri
       (started "store") w /\
     Completes (V2020.delete retries gi classifier)
       (call l deleteOp newStorage key) (S retries) "delete" uri (started "delete") w /\
     forall e, failureMessage "retrieve" uri e
               = "Failed to retrieve cache archive " +:+ uri +:+ ": " +:+ message e)
    /\
    (let l := cacheRef gi w in
     let key := cachePath2019 gi classifier w in
     let uri := objectUri (bucketName gi w) key in
     let started verb := logged debug (startMessage verb uri) (resolved gi (resolved gi w)) in
     Rethrows (V2019.retrieve gi classifier file)
       (call l (retrieveOp file) newStorage key) 1 "retrieve" uri (started "retrieve") w /\
     Swallows (V2019.store gi classifier file)
       (call l (V2019.storeOp file) newStorage key) 1 "store" uri (started "store") w /\
     Swallows (V2019.delete gi classifier)
       (call l deleteOp newStorage key) 1 "delete" uri (started "delete") w /\
     Completes (V2019.retrieve gi classifier file)
       (call l (retrieveOp file) newStorage key) 1 "retrieve" uri (started "retrieve") w /\
     Completes (V2019.store gi classifier file)
       (call l (V2019.storeOp file) newStorage key) 1 "store" uri (started "store") w /\
     Completes (V2019.delete gi classifier)
       (call l deleteOp newStorage key) 1 "delete" uri (started "delete") w /\
     forall e, failureMessage "retrieve" uri e
               = "Failed to retrieve cache archive " +:+ uri +:+ ": " +:+ message e).
Proof.
  intros retries gi classifier file w. split; cbv zeta.
  - unfold Rethrows, Swallows, Completes, V2020.retrieve, V2020.store, V2020.delete.
    repeat split; intros; rewrite gcs2020_run;
      first [ erewrite gcsFrom_threw by eassumption; reflexivity
            | erewrite gcsFrom_returned; [reflexivity| |eassumption]; lia ].
  - unfold Rethrows, Swallows, Completes, V2019.retrieve, V2019.store, V2019.delete.
    repeat split; intros; rewrite gcs2019_run;
      first [ erewrite gcsFrom_threw by eassumption; reflexivity
            | erewrite gcsFrom_returned; [reflexivity| |eassumption]; lia ].
Qed.

Lemma archive_store_failure_policy_witness :
  fst (V2020.retrieve 2 giProvided "c" "out.tgz" (worldWith providedBlock))
  = Threw (mkError ("Failed to retrieve cache archive gs://hickory-wind/lazy/days/c/cache.tar.gz"
                    +:+ ": No such object: hickory-wind/lazy/days/c/cache.tar.gz")) /\
  fst (V2020.store 2 giProvided "c" "out.tgz" (worldWith providedBlock)) = Returned tt /\
  fst (V2019.delete giProvided "c" (worldWith providedBlock)) = Returned tt.
Proof.
  destruct (archive_store_failure_policy 2 giProvided "c" "out.tgz" (worldWith providedBlock))
    as [(Hretrieve & Hstore & _) (_ & _ & Hdelete & _)].
  split; [|split].
  - erewrite Hretrieve; cycle 1.
    { eapply fails_again; [vm_compute; reflexivity|].
      eapply fails_again; [vm_compute; reflexivity|].
      eapply fails_once. vm_compute. reflexivity. }
    vm_compute. reflexivity.
  - erewrite Hstore; cycle 1.
    { eapply fails_again; [vm_compute; reflexivity|].
      eapply fails_again; [vm_compute; reflexivity|].
      eapply fails_once. vm_compute. reflexivity. }
    reflexivity.
  - erewrite Hdelete; cycle 1.
    { eapply fails_once. vm_compute. reflexivity. }
    reflexivity.
Defined.

(** C2: on the input of the repository's own test the object key is not
    the one the test and the claim expect: the revision of 2019 gives
    lazy/days/TH3BY4D5/i-am-a-pilgrim/cache.tar.gz and the revision of
    2020 gives lazy/days/i-am-a-pilgrim/cache.tar.gz. *)
Theorem getCachePath_test_input :
  let expected :=
    "lazy/days/TH3BY4D5/100yearsfromnow/YoureStillOnMyMind/you-aint-goin-nowhere/"
    +:+ "the-christian-life/i-am-a-pilgrim/808eddb6016a45091e6d53f12ab8ca2d1cd7fb3e-cache.tar.gz" in
  let p2019 := fst (V2019.getCachePath giProvided (Some "i-am-a-pilgrim")
                      (worldWith providedBlock)) in
  let p2020 := fst ((cacheConfig ← getCacheConfig giProvided;
                     V2020.getCachePath cacheConfig (Some "i-am-a-pilgrim"))
                      (worldWith providedBlock)) in
  p2019 = Returned "lazy/days/TH3BY4D5/i-am-a-pilgrim/cache.tar.gz" /\
  p2020 = Returned "lazy/days/i-am-a-pilgrim/cache.tar.gz" /\
  p2019 <> Returned expected /\
  p2020 <> Returned expected.
Proof. vm_compute. repeat split; discriminate. Qed.

(** ** Storage requests under the retry loop *)

Lemma request_run (act : Storage.Disks -> Outcome unit * Storage.Disks) (w : World) :
  heap (snd (Storage.request act w)) = heap w /\
  clientLog (snd (Storage.request act w)) = clientLog w /\
  progressLog (snd (Storage.request act w)) = progressLog w /\
  calls (cloud (snd (Storage.request act w))) = S (calls (cloud w)) /\
  faults (cloud (snd (Storage.request act w))) = tail (faults (cloud w)).
Proof. unfold Storage.request. cbn. repeat split. Qed.

(** A loop over a computation that keeps the heap only depends on what
    the computation does on worlds with that heap. *)
Lemma retryLoop_same_heap {A : Type} (what what' : M A) (h : gmap loc CacheBlock) :
  (forall w, heap w = h -> what w = what' w) ->
  (forall w, heap (snd (what' w)) = heap w) ->
  forall (n : nat) (w : World), heap w = h -> retryLoop n what w = retryLoop n what' w.
Proof.
  intros Hsame Hkeeps. induction n as [|n IH]; intros w Hw; cbn [retryLoop].
  - rewrite Hsame by exact Hw. reflexivity.
  - rewrite Hsame by exact Hw. pose proof (Hkeeps w) as Hk.
    destruct (what' w) as [[a|e] w0]; [reflexivity|].
    apply IH. cbn in Hk. congruence.
Qed.

Lemma retryLoop_request_frame (act : Storage.Disks -> Outcome unit * Storage.Disks) (n : nat) :
  forall w : World,
    let w' := snd (retryLoop n (Storage.request act) w) in
    heap w' = heap w /\ clientLog w' = clientLog w /\ progressLog w' = progressLog w /\
    calls (cloud w) < calls (cloud w') <= calls (cloud w) + S n.
Proof.
  induction n as [|n IH]; intros w; cbn [retryLoop].
  - destruct (request_run act w) as (Hh & Hc & Hp & Hn & _).
    destruct (Storage.request act w) as [[a|e] w0]; cbn in *; repeat split; try assumption; lia.
  - destruct (request_run act w) as (Hh & Hc & Hp & Hn & _).
    destruct (Storage.request act w) as [[a|e] w0]; cbn in *.
    + repeat split; try assumption; lia.
    + destruct (IH w0) as (Hh' & Hc' & Hp' & Hn'). cbv zeta in *.
      repeat split; try congruence; lia.
Qed.

Lemma truthy_append (s t : string) : truthy s = true -> truthy (s +:+ t) = true.
Proof. destruct s; [discriminate|reflexivity]. Qed.

(** With a bucket name in the configuration object, each call of the
    three operations is one storage request. *)
Lemma call_retrieveOp (l : loc) (file key b : string) (w : World) :
  bucket (deref (heap w) l) = Some b -> truthy b = true -> truthy key = true ->
  call l (retrieveOp file) newStorage key w
  = Storage.request (Storage.downloadAct (b, key) file) w.
Proof.
  intros Hb Hb' Hk. unfold call, retrieveOp, Storage.bucket, Storage.file, Storage.download.
  cbv [mbind M_bind mret M_ret get throw]. rewrite Hb, Hb', Hk. reflexivity.
Qed.

Lemma call_deleteOp (l : loc) (key b : string) (w : World) :
  bucket (deref (heap w) l) = Some b -> truthy b = true -> truthy key = true ->
  call l deleteOp newStorage key w = Storage.request (Storage.deleteAct (b, key)) w.
Proof.
  intros Hb Hb' Hk. unfold call, deleteOp, Storage.bucket, Storage.file, Storage.delete.
  cbv [mbind M_bind mret M_ret get throw]. rewrite Hb, Hb', Hk. reflexivity.
Qed.

Lemma call_storeOp (l : loc) (acl : option string) (file key b : string) (w : World) :
  bucket (deref (heap w) l) = Some b -> truthy b = true ->
  call l (fun storage bucket cachePath =>
            b ← Storage.bucket storage bucket;
            Storage.upload b file (Storage.mkUploadOptions cachePath acl false))
    newStorage key w
  = Storage.request (Storage.uploadAct b file (Storage.mkUploadOptions key acl false)) w.
Proof.
  intros Hb Hb'. unfold call, Storage.bucket, Storage.upload.
  cbv [mbind M_bind mret M_ret get throw]. rewrite Hb, Hb'. reflexivity.
Qed.

Lemma retrieveOp_request (file : string) : isRequestOp (retrieveOp file) (retrieveAct file).
Proof. intros l key b w. apply call_retrieveOp. Qed.

Lemma deleteOp_request : isRequestOp deleteOp deleteAct.
Proof. intros l key b w. apply call_deleteOp. Qed.

Lemma storeOp2020_request (file : string) : isRequestOp (V2020.storeOp file) (storeAct None file).
Proof. intros l key b w Hb Hb' _. apply call_storeOp; assumption. Qed.

Lemma storeOp2019_request (file : string) :
  isRequestOp (V2019.storeOp file) (storeAct (Some "projectPrivate") file).
Proof. intros l key b w Hb Hb' _. apply call_storeOp; assumption. Qed.

Lemma gcsFrom_request (op : GcsOp) actOf (n : nat) (l : loc) (b key verb : string) (w : World) :
  isRequestOp op actOf ->
  bucket (deref (heap w) l) = Some b -> truthy b = true -> truthy key = true ->
  gcsFrom n l b key op verb w = gcsReq n b key (actOf b key) verb w.
Proof.
  intros Hop Hb Hb' Hk. unfold gcsFrom, gcsReq.
  rewrite (retryLoop_same_heap (call l op newStorage key) (Storage.request (actOf b key))
             (heap w)); [reflexivity| | |reflexivity].
  - intros w' Hw'. apply Hop; [rewrite Hw'; exact Hb|exact Hb'|exact Hk].
  - intros w'. apply request_run.
Qed.

Lemma cachePath2020_truthy (gi : GoalInvocation) (classifier : string) (w : World) :
  truthy (cachePath2020 gi classifier w) = true.
Proof. unfold cachePath2020. cbn. apply truthy_append, pathPrefix_truthy. Qed.

Lemma cachePath2019_truthy (gi : GoalInvocation) (classifier : string) (w : World) :
  truthy (cachePath2019 gi classifier w) = true.
Proof. unfold cachePath2019. cbn. apply truthy_append, pathPrefix_truthy. Qed.

Lemma gcs2020_request (retries : nat) (gi : GoalInvocation) (classifier : string)
    (op : GcsOp) actOf (verb : string) (w : World) :
  isRequestOp op actOf ->
  V2020.gcs retries gi classifier op verb w =
  gcsReq retries (bucketName gi w) (cachePath2020 gi classifier w)
    (actOf (bucketName gi w) (cachePath2020 gi classifier w)) verb (resolved gi w).
Proof.
  intros Hop. rewrite gcs2020_run. apply gcsFrom_request; [exact Hop| | |].
  - rewrite deref_resolved. reflexivity.
  - apply bucketName_truthy.
  - apply cachePath2020_truthy.
Qed.

Lemma gcs2019_request (gi : GoalInvocation) (classifier : string)
    (op : GcsOp) actOf (verb : string) (w : World) :
  isRequestOp op actOf ->
  V2019.gcs gi classifier op verb w =
  gcsReq 0 (bucketName gi w) (cachePath2019 gi classifier w)
    (actOf (bucketName gi w) (cachePath2019 gi classifier w)) verb
    (resolved gi (resolved gi w)).
Proof.
  intros Hop. rewrite gcs2019_run. apply gcsFrom_request; [exact Hop| | |].
  - rewrite deref_resolved_twice. reflexivity.
  - apply bucketName_truthy.
  - apply cachePath2019_truthy.
Qed.

Lemma gcsReq_frame (n : nat) (b key : string) act (verb : string) (w : World) :
  let w' := snd (gcsReq n b key act verb w) in
  heap w' = heap w /\ calls (cloud w) < calls (cloud w') <= calls (cloud w) + S n.
Proof.
  unfold gcsReq.
  pose proof (retryLoop_request_frame act n (logged debug (startMessage verb (objectUri b key)) w))
    as (Hh & _ & _ & Hn).
  destruct (retryLoop n _ _) as [[a|e] w0]; cbn in *; split; assumption.
Qed.

(** ** The retry policy *)

(** C6, as stated, fails: the revision of 2019 does not retry.  After one
    transient failure its store gives up, having made one request, though
    the same call made again succeeds. *)
Lemma store2019_does_not_retry :
  let r := V2019.store giProvided "c" "in.tgz" flakyWorld in
  let key := "lazy/days/TH3BY4D5/c/cache.tar.gz" in
  fst r = Returned tt /\
  calls (cloud (snd r)) = 1 /\
  objects (cloud (snd r)) !! ("hickory-wind", key) = None /\
  last (clientLog (snd r))
  = Some (error, "Failed to store cache archive gs://hickory-wind/" +:+ key +:+ ": ECONNRESET") /\
  fst (call 0 (V2019.storeOp "in.tgz") newStorage key (snd r)) = Returned tt.
Proof. vm_compute. repeat split. Qed.

(** On the same input the revision of 2020, with one retry, makes a
    second request and stores the object. *)
Example store2020_retries :
  let r := V2020.store 1 giProvided "c" "in.tgz" flakyWorld in
  calls (cloud (snd r)) = 2 /\
  objects (cloud (snd r)) !! ("hickory-wind", "lazy/days/c/cache.tar.gz") = Some "Test junk".
Proof. vm_compute. repeat split. Qed.

(** C6, amended: in the revision of 2020 the storage call of every
    operation runs under the retry loop: it is made again while it fails,
    at most [retries] more times, and then either an attempt has succeeded
    and the operation logs the completion, or all [retries + 1] attempts
    have failed and the last error goes to the swallow-or-rethrow policy;
    store, retrieve and delete make between 1 and [retries + 1] storage
    requests.  In the revision of 2019 they make exactly one request: a
    failure is final at once, and the error of that one call goes to the
    swallow-or-rethrow policy. *)
Theorem retry_policy :
  forall (retries : nat) (gi : GoalInvocation) (classifier : string) (w : World),
    (forall (op : GcsOp) (verb : string),
       let l := cacheRef gi w in
       let key := cachePath2020 gi classifier w in
       let uri := objectUri (bucketName gi w) key in
       let started := logged debug (startMessage verb uri) (resolved gi w) in
       (exists k w', k <= retries /\
          succeedsAfter (call l op newStorage key) k started tt w' /\
          V2020.gcs retries gi classifier op verb w
          = (Returned tt, logged debug (doneMessage verb uri) w')) \/
       (exists e w',
          failsTimes (call l op newStorage key) (S retries) started e w' /\
          V2020.gcs retries gi classifier op verb w
          = (if String.eqb verb "retrieve"
             then Threw (mkError (failureMessage verb uri e))
             else Returned tt,
             logged error (failureMessage verb uri e) w'))) /\
    (forall file : string,
       let made (run : M unit) := calls (cloud (snd (run w))) - calls (cloud w) in
       1 <= made (V2020.store retries gi classifier file) <= S retries /\
       1 <= made (V2020.retrieve retries gi classifier file) <= S retries /\
       1 <= made (V2020.delete retries gi classifier) <= S retries /\
       made (V2019.store gi classifier file) = 1 /\
       made (V2019.retrieve gi classifier file) = 1 /\
       made (V2019.delete gi classifier) = 1) /\
    (forall (op : GcsOp) (verb : string),
       let l := cacheRef gi w in
       let key := cachePath2019 gi classifier w in
       let uri := objectUri (bucketName gi w) key in
       let started := logged debug (startMessage verb uri) (resolved gi (resolved gi w)) in
       (exists w',
          call l op newStorage key started = (Returned tt, w') /\
          V2019.gcs gi classifier op verb w
          = (Returned tt, logged debug (doneMessage verb uri) w')) \/
       (exists e w',
          call l op newStorage key started = (Threw e, w') /\
          V2019.gcs gi classifier op verb w
          = (if String.eqb verb "retrieve"
             then Threw (mkError (failureMessage verb uri e))
             else Returned tt,
             logged error (failureMessage verb uri e) w'))).
Proof.
  intros retries gi classifier w. split; [|split].
  - intros op verb l key uri started. rewrite gcs2020_run.
    destruct (retryLoop_bounded (call l op newStorage key) retries started)
      as [(k & [] & w' & Hk & Hs & _)|(e & w' & Hf & _)].
    + left. exists k, w'. split; [exact Hk|]. split; [exact Hs|].
      eapply gcsFrom_returned; eassumption.
    + right. exists e, w'. split; [exact Hf|]. apply gcsFrom_threw. exact Hf.
  - intros file made. subst made. cbv beta.
    unfold V2020.store, V2020.retrieve, V2020.delete, V2019.store, V2019.retrieve,
      V2019.delete.
    rewrite (gcs2020_request _ _ _ _ _ _ _ (storeOp2020_request file)),
      (gcs2020_request _ _ _ _ _ _ _ (retrieveOp_request file)),
      (gcs2020_request _ _ _ _ _ _ _ deleteOp_request),
      (gcs2019_request _ _ _ _ _ _ (storeOp2019_request file)),
      (gcs2019_request _ _ _ _ _ _ (retrieveOp_request file)),
      (gcs2019_request _ _ _ _ _ _ deleteOp_request).
    repeat match goal with
           | |- context [gcsReq ?n ?b ?k ?a ?v ?w0] =>
               let H := fresh "H" in
               pose proof (gcsReq_frame n b k a v w0) as [_ H]; cbv zeta in H; revert H;
               generalize (calls (cloud (snd (gcsReq n b k a v w0))))
           end.
    cbn [resolved with_heap cloud]. intros. lia.
  - intros op verb l key uri started. rewrite gcs2019_run.
    unfold gcsFrom. rewrite retryLoop_0. fold l key uri started.
    destruct (call l op newStorage key started) as [[[]|e] w'].
    + left. exists w'. split; reflexivity.
    + right. exists e, w'. split; reflexivity.
Qed.

(** ** Round trip *)

Lemma leadingFaults_le_count (fs : list (option string)) : leadingFaults fs <= countFaults fs.
Proof. induction fs as [|[m|] r IH]; cbn; lia. Qed.

Lemma countFaults_tail (fs : list (option string)) : countFaults (tail fs) <= countFaults fs.
Proof. destruct fs as [|[m|] r]; cbn; lia. Qed.

Section Requests.

Variable act : Storage.Disks -> Outcome unit * Storage.Disks.

(** A request that fails changes neither the objects nor the files. *)
Hypothesis act_fails_clean :
  forall (d : Storage.Disks) (e : Error) (d' : Storage.Disks), act d = (Threw e, d') -> d' = d.

Lemma request_inv (w : World) :
  match fst (Storage.request act w) with
  | Returned _ => act (disks w) = (Returned tt, disks (snd (Storage.request act w)))
  | Threw _ => disks (snd (Storage.request act w)) = disks w
  end.
Proof.
  unfold Storage.request, disks.
  destruct (head (faults (cloud w))) as [[msg|]|]; cbn; try reflexivity;
    destruct (act (objects (cloud w), files (cloud w))) as [[[]|e] [o f]] eqn:Ha; cbn;
    try reflexivity; apply act_fails_clean in Ha; exact Ha.
Qed.

Lemma retryLoop_request_inv (n : nat) : forall w : World,
  match fst (retryLoop n (Storage.request act) w) with
  | Returned _ =>
      act (disks w) = (Returned tt, disks (snd (retryLoop n (Storage.request act) w)))
  | Threw _ => disks (snd (retryLoop n (Storage.request act) w)) = disks w
  end.
Proof.
  induction n as [|n IH]; intros w; cbn [retryLoop]; pose proof (request_inv w) as H1.
  - destruct (Storage.request act w) as [[a|e] w0]; exact H1.
  - destruct (Storage.request act w) as [[a|e] w0]; [exact H1|].
    cbn in H1. specialize (IH w0). rewrite H1 in IH. exact IH.
Qed.

Lemma request_result (w : World) :
  Storage.request act w =
  match head (faults (cloud w)) with
  | Some (Some msg) => (Threw (mkError msg), afterRequest w (disks w))
  | _ => (fst (act (disks w)), afterRequest w (snd (act (disks w))))
  end.
Proof.
  unfold Storage.request, afterRequest, disks.
  destruct (head (faults (cloud w))) as [[msg|]|]; reflexivity.
Qed.

Lemma retryLoop_request_success (n : nat) : forall (w : World) (d' : Storage.Disks),
  act (disks w) = (Returned tt, d') ->
  leadingFaults (faults (cloud w)) <= n ->
  let r := retryLoop n (Storage.request act) w in
  fst r = Returned tt /\ disks (snd r) = d' /\
  countFaults (faults (cloud (snd r))) <= countFaults (faults (cloud w)).
Proof.
  induction n as [|n IH]; intros w [o f] Hact Hlead; cbn [retryLoop];
    rewrite request_result; pose proof (countFaults_tail (faults (cloud w))) as Htail;
    destruct (faults (cloud w)) as [|[msg|] fs] eqn:Hfs; cbn [head leadingFaults] in *;
    try lia; try (rewrite Hact; cbn; rewrite Hfs; repeat split; exact Htail).
  destruct (IH (afterRequest w (disks w)) (o, f)) as (H1 & H2 & H3).
  - exact Hact.
  - cbn. rewrite Hfs. cbn. lia.
  - cbv zeta in *. cbn in H3. rewrite Hfs in H3. cbn in H3, Htail.
    repeat split; [exact H1|exact H2|cbn; lia].
Qed.

Lemma gcsReq_inv (n : nat) (b key verb : string) (w : World) :
  let r := gcsReq n b key act verb w in
  heap (snd r) = heap w /\
  ((fst r = Returned tt /\ completed verb (objectUri b key) (snd r) /\
    act (disks w) = (Returned tt, disks (snd r))) \/
   (exists e,
      last (clientLog (snd r)) = Some (error, failureMessage verb (objectUri b key) e) /\
      disks (snd r) = disks w /\
      fst r = if String.eqb verb "retrieve"
              then Threw (mkError (failureMessage verb (objectUri b key) e))
              else Returned tt)).
Proof.
  cbv zeta. unfold gcsReq, completed.
  pose proof (retryLoop_request_frame act n
                (logged debug (startMessage verb (objectUri b key)) w)) as (Hh & _).
  pose proof (retryLoop_request_inv n
                (logged debug (startMessage verb (objectUri b key)) w)) as Hinv.
  destruct (retryLoop n _ _) as [[[]|e] w0]; cbn in *; (split; [exact Hh|]).
  - left. rewrite last_snoc. repeat split. exact Hinv.
  - right. exists e. rewrite last_snoc. repeat split. exact Hinv.
Qed.

Lemma gcsReq_success (n : nat) (b key verb : string) (w : World) (d' : Storage.Disks) :
  act (disks w) = (Returned tt, d') ->
  leadingFaults (faults (cloud w)) <= n ->
  let r := gcsReq n b key act verb w in
  fst r = Returned tt /\ completed verb (objectUri b key) (snd r) /\
  disks (snd r) = d' /\ heap (snd r) = heap w /\
  countFaults (faults (cloud (snd r))) <= countFaults (faults (cloud w)).
Proof.
  intros Hact Hlead. cbv zeta. unfold gcsReq, completed.
  pose proof (retryLoop_request_frame act n
                (logged debug (startMessage verb (objectUri b key)) w)) as (Hh & _).
  pose proof (retryLoop_request_success n
                (logged debug (startMessage verb (objectUri b key)) w) d' Hact Hlead)
    as (H1 & H2 & H3).
  destruct (retryLoop n _ _) as [[[]|e] w0]; cbn in *; [|discriminate].
  rewrite last_snoc. repeat split; assumption.
Qed.

End Requests.

Lemma storeAct_fails_clean acl file b key d e d' :
  storeAct acl file b key d = (Threw e, d') -> d' = d.
Proof.
  unfold storeAct, Storage.uploadAct. destruct (snd d !! file); [discriminate|congruence].
Qed.

Lemma retrieveAct_fails_clean file b key d e d' :
  retrieveAct file b key d = (Threw e, d') -> d' = d.
Proof.
  unfold retrieveAct, Storage.downloadAct. destruct (fst d !! (b, key)); [discriminate|congruence].
Qed.

Lemma deleteAct_fails_clean b key d e d' : deleteAct b key d = (Threw e, d') -> d' = d.
Proof.
  unfold deleteAct, Storage.deleteAct. destruct (fst d !! (b, key)); [discriminate|congruence].
Qed.

Lemma storeAct_returned acl file b key (d d' : Storage.Disks) :
  storeAct acl file b key d = (Returned tt, d') <->
  exists content, snd d !! file = Some content /\ d' = (<[(b, key) := content]> (fst d), snd d).
Proof.
  unfold storeAct, Storage.uploadAct. cbn. destruct (snd d !! file) as [c|]; split.
  - intros [= <-]. eauto.
  - intros (c' & [= <-] & ->). reflexivity.
  - discriminate.
  - intros (c' & [=] & _).
Qed.

Lemma retrieveAct_returned file b key (d d' : Storage.Disks) :
  retrieveAct file b key d = (Returned tt, d') <->
  exists content, fst d !! (b, key) = Some content /\ d' = (fst d, <[file := content]> (snd d)).
Proof.
  unfold retrieveAct, Storage.downloadAct. destruct (fst d !! (b, key)) as [c|]; split.
  - intros [= <-]. eauto.
  - intros (c' & [= <-] & ->). reflexivity.
  - discriminate.
  - intros (c' & [=] & _).
Qed.

Lemma deleteAct_returned b key (d d' : Storage.Disks) :
  deleteAct b key d = (Returned tt, d') <->
  is_Some (fst d !! (b, key)) /\ d' = (base.delete (b, key) (fst d), snd d).
Proof.
  unfold deleteAct, Storage.deleteAct. destruct (fst d !! (b, key)) as [c|]; split.
  - intros [= <-]. eauto.
  - intros [_ ->]. reflexivity.
  - discriminate.
  - intros [[c Hc] _]. discriminate.
Qed.

Section RoundTripProof.

Variable n : nat.
Variable keyOf : GoalInvocation -> string -> World -> string.
Variable res : GoalInvocation -> World -> World.
Variable acl : option string.
Variable store retrieve : GoalInvocation -> string -> string -> M unit.
Variable delete : GoalInvocation -> string -> M unit.

Hypothesis store_run : forall gi classifier file w,
  store gi classifier file w =
  gcsReq n (bucketName gi w) (keyOf gi classifier w)
    (storeAct acl file (bucketName gi w) (keyOf gi classifier w)) "store" (res gi w).
Hypothesis retrieve_run : forall gi classifier file w,
  retrieve gi classifier file w =
  gcsReq n (bucketName gi w) (keyOf gi classifier w)
    (retrieveAct file (bucketName gi w) (keyOf gi classifier w)) "retrieve" (res gi w).
Hypothesis delete_run : forall gi classifier w,
  delete gi classifier w =
  gcsReq n (bucketName gi w) (keyOf gi classifier w)
    (deleteAct (bucketName gi w) (keyOf gi classifier w)) "delete" (res gi w).
Hypothesis res_heap : forall gi w,
  heap (res gi w) !! cacheRef gi w = Some (populate gi (cacheBefore gi w)).
Hypothesis res_cloud : forall gi w, cloud (res gi w) = cloud w.
Hypothesis keyOf_stable : forall gi classifier w w',
  pathPrefix gi w' = pathPrefix gi w -> keyOf gi classifier w' = keyOf gi classifier w.

Lemma res_disks gi w : disks (res gi w) = disks w.
Proof. unfold disks. rewrite res_cloud. reflexivity. Qed.

(** After an operation the same bucket and key are resolved. *)
Lemma names_after gi classifier b key act verb w :
  let w' := snd (gcsReq n b key act verb (res gi w)) in
  bucketName gi w' = bucketName gi w /\ keyOf gi classifier w' = keyOf gi classifier w.
Proof.
  cbv zeta. destruct (gcsReq_frame n b key act verb (res gi w)) as [Hh _]. cbv zeta in Hh.
  destruct (cacheBefore_resolved gi w (snd (gcsReq n b key act verb (res gi w)))) as [Hb Hp].
  - rewrite Hh. apply res_heap.
  - split; [exact Hb|]. apply keyOf_stable. exact Hp.
Qed.

Lemma round_trip_proof : RoundTrip n keyOf store retrieve delete.
Proof.
  intros gi classifier src dst w object uri r1 r2 r3.
  set (b := bucketName gi w) in *. set (key := keyOf gi classifier w) in *.
  assert (Hr1 : r1 = gcsReq n b key (storeAct acl src b key) "store" (res gi w))
    by apply store_run.
  destruct (names_after gi classifier b key (storeAct acl src b key) "store" w) as [Hb1 Hk1].
  rewrite <- Hr1 in Hb1, Hk1.
  assert (Hr2 : r2 = gcsReq n b key (retrieveAct dst b key) "retrieve" (res gi (snd r1))).
  { unfold r2. rewrite retrieve_run, Hb1, Hk1. reflexivity. }
  destruct (names_after gi classifier b key (retrieveAct dst b key) "retrieve" (snd r1))
    as [Hb2 Hk2].
  rewrite <- Hr2, Hb1 in Hb2. rewrite <- Hr2, Hk1 in Hk2.
  assert (Hr3 : r3 = gcsReq n b key (deleteAct b key) "delete" (res gi (snd r2))).
  { unfold r3. rewrite delete_run, Hb2, Hk2. reflexivity. }
  clearbody r1 r2 r3. subst object uri. cbn [fst snd].
  pose proof (gcsReq_inv _ (storeAct_fails_clean acl src b key) n b key "store" (res gi w))
    as [_ Hi1].
  pose proof (gcsReq_inv _ (retrieveAct_fails_clean dst b key) n b key "retrieve"
                (res gi (snd r1))) as [_ Hi2].
  pose proof (gcsReq_inv _ (deleteAct_fails_clean b key) n b key "delete"
                (res gi (snd r2))) as [_ Hi3].
  cbv zeta in Hi1, Hi2, Hi3. rewrite <- Hr1 in Hi1. rewrite <- Hr2 in Hi2.
  rewrite <- Hr3 in Hi3. rewrite res_disks in Hi1, Hi2, Hi3.
  split; [|split].
  - intros Hdone Hret.
    destruct Hi1 as [(_ & _ & Hact1)|(e & Hlast & _)];
      [|unfold completed in Hdone; congruence].
    apply storeAct_returned in Hact1 as (content & Hsrc & Hd1).
    destruct Hi2 as [(_ & _ & Hact2)|(e & _ & _ & Hthrew)];
      [|cbn in Hthrew; congruence].
    apply retrieveAct_returned in Hact2 as (content' & Hobj & Hd2).
    unfold disks in *. cbn [fst snd] in *.
    injection Hd1 as Ho1 Hf1. injection Hd2 as Ho2 Hf2.
    rewrite Ho1, lookup_insert_eq in Hobj. injection Hobj as <-.
    split; [eauto|]. rewrite Hf2, lookup_insert_eq. symmetry. exact Hsrc.
  - intros Hdone.
    destruct Hi3 as [(_ & _ & Hact3)|(e & Hlast & _)];
      [|unfold completed in Hdone; congruence].
    apply deleteAct_returned in Hact3 as (_ & Hd3).
    unfold disks in *. cbn [fst snd] in *. injection Hd3 as Ho3 Hf3.
    unfold Storage.exists_. rewrite Ho3, lookup_delete_eq. split; [reflexivity|].
    apply bool_decide_eq_false. intros [c Hc]. discriminate.
  - intros content Hsrc Hfaults.
    assert (Hact1 : storeAct acl src b key (disks (res gi w))
                    = (Returned tt, (<[(b, key) := content]> (objects (cloud w)),
                                     files (cloud w)))).
    { rewrite res_disks. apply storeAct_returned. exists content. split; [exact Hsrc|].
      reflexivity. }
    pose proof (gcsReq_success _ n b key "store" (res gi w) _ Hact1) as Hs1.
    rewrite res_cloud in Hs1. cbv zeta in Hs1. rewrite <- Hr1 in Hs1.
    destruct Hs1 as (Hret1 & Hdone1 & Hd1 & _ & Hc1).
    { pose proof (leadingFaults_le_count (faults (cloud w))). lia. }
    unfold disks in Hd1. injection Hd1 as Ho1 Hf1.
    assert (Hact2 : retrieveAct dst b key (disks (res gi (snd r1)))
                    = (Returned tt, (objects (cloud (snd r1)),
                                     <[dst := content]> (files (cloud (snd r1)))))).
    { rewrite res_disks. apply retrieveAct_returned. exists content. cbn.
      rewrite Ho1, lookup_insert_eq. split; reflexivity. }
    pose proof (gcsReq_success _ n b key "retrieve" (res gi (snd r1)) _ Hact2) as Hs2.
    rewrite res_cloud in Hs2. cbv zeta in Hs2. rewrite <- Hr2 in Hs2.
    destruct Hs2 as (Hret2 & _ & Hd2 & _ & Hc2).
    { pose proof (leadingFaults_le_count (faults (cloud (snd r1)))). lia. }
    unfold disks in Hd2. injection Hd2 as Ho2 Hf2.
    assert (Hact3 : deleteAct b key (disks (res gi (snd r2)))
                    = (Returned tt, (base.delete (b, key) (objects (cloud (snd r2))),
                                     files (cloud (snd r2))))).
    { rewrite res_disks. apply deleteAct_returned. cbn.
      rewrite Ho2, Ho1, lookup_insert_eq. split; [eauto|reflexivity]. }
    pose proof (gcsReq_success _ n b key "delete" (res gi (snd r2)) _ Hact3) as Hs3.
    rewrite res_cloud in Hs3. cbv zeta in Hs3. rewrite <- Hr3 in Hs3.
    destruct Hs3 as (Hret3 & Hdone3 & Hd3 & _ & _).
    { pose proof (leadingFaults_le_count (faults (cloud (snd r2)))). lia. }
    unfold disks in Hd3. injection Hd3 as Ho3 Hf3.
    repeat split; try assumption.
    + rewrite Ho1. apply lookup_insert_eq.
    + rewrite Hf2. apply lookup_insert_eq.
    + rewrite Ho3. apply lookup_delete_eq.
Qed.

End RoundTripProof.

Lemma heap_resolved_twice (gi : GoalInvocation) (w : World) :
  heap (resolved gi (resolved gi w)) !! cacheRef gi w = Some (populate gi (cacheBefore gi w)).
Proof.
  pose proof (deref_resolved_twice gi w) as H. unfold deref in H.
  destruct (heap (resolved gi (resolved gi w)) !! cacheRef gi w) as [o|] eqn:Ho.
  - cbn in H. congruence.
  - exfalso. unfold resolved at 1 in Ho. cbn -[fresh] in Ho.
    apply lookup_insert_None in Ho as [Ho _]. rewrite heap_resolved in Ho. discriminate.
Qed.

(** C9: in both revisions, when a store has completed and the retrieve
    that follows it, for the same invocation and classifier, returns, the
    target file has the content of the stored file, and when the delete
    that follows completes, no object is left at the resolved key.  With
    the local file present and no more scheduled faults than the retry
    budget (none, in the revision of 2019), the three operations do
    complete in turn. *)
Theorem round_trip :
  forall retries : nat,
    RoundTrip retries cachePath2020
      (V2020.store retries) (V2020.retrieve retries) (V2020.delete retries) /\
    RoundTrip 0 cachePath2019 V2019.store V2019.retrieve V2019.delete.
Proof.
  intros retries. split.
  - apply (round_trip_proof retries cachePath2020 resolved None).
    + intros. apply gcs2020_request, storeOp2020_request.
    + intros. apply gcs2020_request, retrieveOp_request.
    + intros. apply gcs2020_request, deleteOp_request.
    + apply heap_resolved.
    + reflexivity.
    + intros gi classifier w w' Hp. unfold cachePath2020. rewrite Hp. reflexivity.
  - apply (round_trip_proof 0 cachePath2019 (fun gi w => resolved gi (resolved gi w))
             (Some "projectPrivate")).
    + intros. apply gcs2019_request, storeOp2019_request.
    + intros. apply gcs2019_request, retrieveOp_request.
    + intros. apply gcs2019_request, deleteOp_request.
    + apply heap_resolved_twice.
    + reflexivity.
    + intros gi classifier w w' Hp. unfold cachePath2019. rewrite Hp. reflexivity.
Qed.

Lemma round_trip_witness :
  let r1 := V2020.store 2 giProvided "c" "in.tgz" flakyWorld in
  let r2 := V2020.retrieve 2 giProvided "c" "out.tgz" (snd r1) in
  let r3 := V2020.delete 2 giProvided "c" (snd r2) in
  files (cloud flakyWorld) !! "in.tgz" = Some "Test junk" /\
  countFaults (faults (cloud flakyWorld)) <= 2 /\
  objects (cloud (snd r1)) !! ("hickory-wind", "lazy/days/c/cache.tar.gz") = Some "Test junk" /\
  files (cloud (snd r2)) !! "out.tgz" = Some "Test junk" /\
  objects (cloud (snd r3)) !! ("hickory-wind", "lazy/days/c/cache.tar.gz") = None.
Proof.
  cbv zeta.
  assert (Hfile : files (cloud flakyWorld) !! "in.tgz" = Some "Test junk") by reflexivity.
  assert (Hfaults : countFaults (faults (cloud flakyWorld)) <= 2) by (cbn; lia).
  destruct (proj1 (round_trip 2) giProvided "c" "in.tgz" "out.tgz" flakyWorld)
    as (_ & _ & Hgood).
  destruct (Hgood "Test junk" Hfile Hfaults)
    as (_ & _ & Hstored & _ & Hretrieved & _ & _ & Hdeleted).
  repeat split; assumption.
Defined.

(** * Further properties of the code *)

(** ** The resolved configuration *)

Lemma append_assoc_s (s t u : string) : (s +:+ t) +:+ u = s +:+ (t +:+ u).
Proof.
  induction s as [|c r IH]; [reflexivity|].
  rewrite !append_cons, IH. reflexivity.
Qed.

Lemma keep_app (p : ascii -> bool) (s t : string) :
  keep p (s +:+ t) = keep p s +:+ keep p t.
Proof.
  induction s as [|c r IH]; [reflexivity|].
  rewrite append_cons. cbn [keep]. destruct (p c); [rewrite append_cons|]; rewrite IH; reflexivity.
Qed.

Lemma defaultBucket_parts (gi : GoalInvocation) :
  defaultBucket gi =
  squeeze ("sdm-" +:+ keep inClass (toLowerCase (context_workspaceId gi)) +:+ "-"
           +:+ keep inClass (toLowerCase (configuration_name gi)) +:+ "-goal-cache").
Proof.
  rewrite defaultBucket_squeeze. rewrite !toLowerCase_app, !keep_app. reflexivity.
Qed.

Lemma squeeze_other (c : ascii) (r : string) :
  isHyphen c = false -> squeeze (String c r) = String c (squeeze r).
Proof. intros Hc. cbn [squeeze]. rewrite Hc. reflexivity. Qed.

Lemma squeeze_hyphen_head (y : string) : exists r, squeeze (String "-" y) = String "-" r.
Proof.
  cbn [squeeze]. change (isHyphen "-") with true. cbn [andb].
  destruct (startsWithHyphen y) eqn:Hy; [|eauto].
  pose proof (squeeze_starts y) as Hs. rewrite Hy in Hs.
  destruct (squeeze y) as [|c r]; [discriminate|]. cbn in Hs.
  apply Ascii.eqb_eq in Hs. subst c. eauto.
Qed.

Lemma squeeze_keeps_suffix (x : string) :
  exists r, squeeze (x +:+ "-goal-cache") = r +:+ "-goal-cache".
Proof.
  induction x as [|c x IH].
  - exists "". reflexivity.
  - destruct IH as [r Hr]. rewrite append_cons. cbn [squeeze].
    destruct (isHyphen c && startsWithHyphen (x +:+ "-goal-cache")).
    + exists r. exact Hr.
    + exists (String c r). rewrite Hr. reflexivity.
Qed.

Lemma resolvedBucket_run (gi : GoalInvocation) (w : World) :
  resolvedBucket gi w = Some (bucketName gi w).
Proof.
  unfold resolvedBucket. rewrite getCacheConfig_run. fold (resolved gi w).
  rewrite deref_resolved. reflexivity.
Qed.

Lemma resolvedPath_run (gi : GoalInvocation) (w : World) :
  resolvedPath gi w = Some (pathPrefix gi w).
Proof.
  unfold resolvedPath. rewrite getCacheConfig_run. fold (resolved gi w).
  rewrite deref_resolved. reflexivity.
Qed.

Lemma bucketName_unset (gi : GoalInvocation) (w : World) :
  bucketUnset gi w -> bucketName gi w = defaultBucket gi.
Proof. unfold bucketUnset, bucketName. intros [-> | ->]; reflexivity. Qed.

(** X1: what getCacheConfig returns is a complete configuration: bucket,
    enabled and path are all defined, and bucket and path are not empty. *)
Theorem getCacheConfig_populated :
  forall (gi : GoalInvocation) (w : World),
    exists l w' b e p,
      getCacheConfig gi w = (Returned l, w') /\
      heap w' !! l = Some (mkCacheBlock (Some b) (Some e) (Some p)) /\
      b <> "" /\ p <> "".
Proof.
  intros gi w. rewrite getCacheConfig_run.
  exists (cacheRef gi w), (resolved gi w), (bucketName gi w),
    (orBool (enabled (cacheBefore gi w)) false), (pathPrefix gi w).
  split; [reflexivity|]. split; [apply heap_resolved|].
  split; apply truthy_nonempty; [apply bucketName_truthy|apply pathPrefix_truthy].
Qed.

(** X2: a defaulted bucket name always starts with sdm- and ends with
    -goal-cache, whatever the workspace identifier and the application
    name are. *)
Theorem default_bucket_shape :
  forall (gi : GoalInvocation) (w : World),
    bucketUnset gi w ->
    exists r1 r2,
      resolvedBucket gi w = Some ("sdm-" +:+ r1) /\
      resolvedBucket gi w = Some (r2 +:+ "-goal-cache").
Proof.
  intros gi w Hunset. rewrite resolvedBucket_run, (bucketName_unset _ _ Hunset).
  rewrite defaultBucket_parts.
  set (a := keep inClass (toLowerCase (context_workspaceId gi))).
  set (b := keep inClass (toLowerCase (configuration_name gi))).
  assert (Hhead : exists r1, squeeze ("sdm-" +:+ a +:+ "-" +:+ b +:+ "-goal-cache")
                             = "sdm-" +:+ r1).
  { rewrite !append_cons, append_empty_l.
    rewrite !squeeze_other by reflexivity.
    match goal with
    | |- context [squeeze (String "-" ?y)] => destruct (squeeze_hyphen_head y) as [r Hr]
    end.
    exists r. rewrite Hr. reflexivity. }
  assert (Htail : exists r2, squeeze ("sdm-" +:+ a +:+ "-" +:+ b +:+ "-goal-cache")
                             = r2 +:+ "-goal-cache").
  { replace ("sdm-" +:+ a +:+ "-" +:+ b +:+ "-goal-cache")
      with (("sdm-" +:+ a +:+ "-" +:+ b) +:+ "-goal-cache")
      by (rewrite !append_assoc_s; reflexivity).
    apply squeeze_keeps_suffix. }
  destruct Hhead as [r1 H1]. destruct Htail as [r2 H2].
  exists r1, r2. split; congruence.
Qed.

Lemma default_bucket_shape_witness :
  exists r1 r2,
    resolvedBucket (invocationOf "--" None) emptyWorld = Some ("sdm-" +:+ r1) /\
    resolvedBucket (invocationOf "--" None) emptyWorld = Some (r2 +:+ "-goal-cache").
Proof.
  apply (default_bucket_shape (invocationOf "--" None) emptyWorld). left. reflexivity.
Defined.

(** X3: the defaulted bucket name depends on the workspace identifier and
    the application name only through their lower-cased, stripped forms:
    two invocations whose identifiers and names differ in case or in
    stripped characters only get the same bucket. *)
Theorem default_bucket_merges_names :
  forall (gi1 gi2 : GoalInvocation) (w1 w2 : World),
    bucketUnset gi1 w1 -> bucketUnset gi2 w2 ->
    keep inClass (toLowerCase (context_workspaceId gi1))
      = keep inClass (toLowerCase (context_workspaceId gi2)) ->
    keep inClass (toLowerCase (configuration_name gi1))
      = keep inClass (toLowerCase (configuration_name gi2)) ->
    resolvedBucket gi1 w1 = resolvedBucket gi2 w2.
Proof.
  intros gi1 gi2 w1 w2 H1 H2 Hws Hname.
  rewrite !resolvedBucket_run, (bucketName_unset _ _ H1), (bucketName_unset _ _ H2).
  rewrite !defaultBucket_parts, Hws, Hname. reflexivity.
Qed.

Lemma default_bucket_merges_names_witness :
  resolvedBucket (mkGoalInvocation "@Byrds/Rodeo" None "T-1" "" "" "" "" "") emptyWorld
  = resolvedBucket (mkGoalInvocation "byrdsrodeo" None "t-1" "" "" "" "" "") emptyWorld.
Proof.
  apply default_bucket_merges_names; try (left; reflexivity); reflexivity.
Defined.

(** X4: the hyphen that joins the workspace identifier and the application
    name does not keep them apart: the identifier x-y with the name z gets
    the bucket of the identifier x with the name y-z. *)
Theorem default_bucket_joint_is_ambiguous :
  forall (x y z providerId owner repo branch sha : string) (w : World),
    resolvedBucket
      (mkGoalInvocation z None (x +:+ "-" +:+ y) providerId owner repo branch sha) w
    = resolvedBucket
        (mkGoalInvocation (y +:+ "-" +:+ z) None x providerId owner repo branch sha) w.
Proof.
  intros. rewrite !resolvedBucket_run.
  rewrite !bucketName_unset by (left; reflexivity).
  rewrite !defaultBucket_squeeze. cbn [context_workspaceId configuration_name].
  do 2 f_equal. f_equal. rewrite !append_cons, !append_empty_l. f_equal. f_equal. f_equal. f_equal.
  rewrite !append_assoc_s. reflexivity.
Qed.

(** ** The operations as storage requests *)

Lemma runOp_request (r : Revision) (o : Operation) (gi : GoalInvocation)
    (classifier : string) (w : World) :
  runOp r o gi classifier w =
  gcsReq (retriesOf r) (bucketName gi w) (keyOf r gi classifier w)
    (actOf r o (bucketName gi w) (keyOf r gi classifier w)) (verbOf o) (resolvedFor r gi w).
Proof.
  destruct r as [n|], o as [f|f|]; cbn [runOp retriesOf keyOf actOf verbOf resolvedFor];
    unfold V2020.store, V2020.retrieve, V2020.delete, V2019.store, V2019.retrieve,
      V2019.delete.
  - apply gcs2020_request, storeOp2020_request.
  - apply gcs2020_request, retrieveOp_request.
  - apply gcs2020_request, deleteOp_request.
  - apply gcs2019_request, storeOp2019_request.
  - apply gcs2019_request, retrieveOp_request.
  - apply gcs2019_request, deleteOp_request.
Qed.

Lemma actOf_fails_clean (r : Revision) (o : Operation) (b key : string) d e d' :
  actOf r o b key d = (Threw e, d') -> d' = d.
Proof.
  destruct o; cbn [actOf].
  - apply storeAct_fails_clean.
  - apply retrieveAct_fails_clean.
  - apply deleteAct_fails_clean.
Qed.

Lemma resolvedFor_heap (r : Revision) (gi : GoalInvocation) (w : World) :
  heap (resolvedFor r gi w) !! cacheRef gi w = Some (populate gi (cacheBefore gi w)).
Proof. destruct r; [apply heap_resolved|apply heap_resolved_twice]. Qed.

Lemma resolvedFor_cloud (r : Revision) (gi : GoalInvocation) (w : World) :
  cloud (resolvedFor r gi w) = cloud w.
Proof. destruct r; reflexivity. Qed.

Lemma resolvedFor_logs (r : Revision) (gi : GoalInvocation) (w : World) :
  clientLog (resolvedFor r gi w) = clientLog w /\
  progressLog (resolvedFor r gi w) = progressLog w.
Proof. destruct r; split; reflexivity. Qed.

Lemma keyOf_stable (r : Revision) (gi : GoalInvocation) (classifier : string) (w w' : World) :
  pathPrefix gi w' = pathPrefix gi w -> keyOf r gi classifier w' = keyOf r gi classifier w.
Proof.
  intros Hp. destruct r; cbn [keyOf]; unfold cachePath2020, cachePath2019; rewrite Hp;
    reflexivity.
Qed.

Lemma resolvedKey_run (r : Revision) (gi : GoalInvocation) (classifier : string) (w : World) :
  resolvedKey r gi classifier w = Returned (keyOf r gi classifier w).
Proof.
  destruct r; cbn [resolvedKey keyOf].
  - unfold V2020.getCachePath. cbv [mbind M_bind mret M_ret get].
    rewrite getCacheConfig_run. fold (resolved gi w). cbv beta iota.
    rewrite deref_resolved, populate_path. reflexivity.
  - rewrite getCachePath2019_run. reflexivity.
Qed.

(** ** The log lines of an operation *)

Lemma gcsReq_logs (n : nat) (b key : string) act (verb : string) (w : World) :
  TwoLines (gcsReq n b key act verb) verb (objectUri b key) w.
Proof.
  unfold TwoLines, gcsReq.
  pose proof (retryLoop_request_frame act n
                (logged debug (startMessage verb (objectUri b key)) w)) as (_ & Hc & Hp & _).
  destruct (retryLoop n _ _) as [[[]|e] w0]; cbn in *.
  - exists debug, (doneMessage verb (objectUri b key)).
    rewrite Hc, Hp, <- !app_assoc. cbn. repeat split. left. split; reflexivity.
  - exists error, (failureMessage verb (objectUri b key) e).
    rewrite Hc, Hp, <- !app_assoc. cbn. repeat split. right. split; [reflexivity|eauto].
Qed.

(** X5: in both revisions each of store, retrieve and delete adds exactly
    two lines to the client log and the same two messages to the progress
    log: first the start message (storing, retrieving or deleting cache
    archive <uri>) at debug level, then either the completion message at
    debug level or the rewritten failure at error level. *)
Theorem two_log_lines :
  forall (r : Revision) (o : Operation) (gi : GoalInvocation) (classifier : string) (w : World),
    let uri := objectUri (bucketName gi w) (keyOf r gi classifier w) in
    TwoLines (runOp r o gi classifier) (verbOf o) uri w /\
    startMessage "store" uri = "storing cache archive " +:+ uri /\
    startMessage "retrieve" uri = "retrieving cache archive " +:+ uri /\
    startMessage "delete" uri = "deleting cache archive " +:+ uri.
Proof.
  intros r o gi classifier w uri. split; [|repeat split].
  unfold TwoLines. rewrite runOp_request.
  destruct (gcsReq_logs (retriesOf r) (bucketName gi w) (keyOf r gi classifier w)
              (actOf r o (bucketName gi w) (keyOf r gi classifier w)) (verbOf o)
              (resolvedFor r gi w)) as (lvl & msg & Hc & Hp & Hcase).
  destruct (resolvedFor_logs r gi w) as [Hc0 Hp0]. rewrite Hc0 in Hc. rewrite Hp0 in Hp.
  exists lvl, msg. repeat split; assumption.
Qed.

(** ** The verb and its gerund *)

Lemma finalE_spec (s : string) :
  finalE s = if String.eqb s "e" then Some 1 else None.
Proof.
  destruct s as [|a r]; [reflexivity|].
  destruct r as [|a' r'];
    destruct a as [[] [] [] [] [] [] [] []]; reflexivity.
Qed.

Lemma endsWith_cons (c a : ascii) (t : string) :
  t <> "" -> endsWith c (String a t) = endsWith c t.
Proof. destruct t; [congruence|reflexivity]. Qed.

Lemma dropLast_cons (a : ascii) (t : string) :
  t <> "" -> dropLast (String a t) = String a (dropLast t).
Proof. destruct t; [congruence|reflexivity]. Qed.

Lemma replaceFrom_finalE (verb : string) : forall pre : string,
  replaceFrom finalE "ing" false pre 0 verb
  = if endsWith "e" verb then dropLast verb +:+ "ing" else verb.
Proof.
  induction verb as [|a r IH]; intros pre; [reflexivity|].
  cbn [replaceFrom]. rewrite finalE_spec.
  destruct r as [|a' r'].
  - cbn [endsWith dropLast String.eqb].
    destruct (Ascii.eqb a "e") eqn:Ha.
    + apply Ascii.eqb_eq in Ha. subst a. reflexivity.
    + reflexivity.
  - replace (String.eqb (String a (String a' r')) "e") with false
      by (cbn; destruct (Ascii.eqb a "e"); reflexivity).
    rewrite IH. rewrite (endsWith_cons "e" a), (dropLast_cons a) by discriminate.
    destruct (endsWith "e" (String a' r')); reflexivity.
Qed.

(** X6: the gerund of the start message, [verb.replace(/e$/, "ing")],
    is the verb with a final e replaced by ing, and the verb itself when it
    does not end in e. *)
Theorem gerund_of_verb :
  forall verb : string,
    replace finalE false "ing" verb
    = if endsWith "e" verb then dropLast verb +:+ "ing" else verb.
Proof. intros verb. apply replaceFrom_finalE. Qed.

(** ** What an operation does to the heap *)

Lemma resolved_effect (gi : GoalInvocation) (w : World) :
  (forall l0, configuration_sdm_cache gi = Some l0 ->
     heap (resolved gi w) !! l0 = Some (populate gi (deref (heap w) l0))) /\
  (forall l', configuration_sdm_cache gi <> Some l' -> is_Some (heap w !! l') ->
     heap (resolved gi w) !! l' = heap w !! l').
Proof.
  unfold resolved, cacheRef, cacheBefore. cbn -[fresh]. split.
  - intros l0 Hl0. rewrite Hl0. apply lookup_insert_eq.
  - intros l' Hl' Hsome. apply lookup_insert_ne.
    destruct (configuration_sdm_cache gi) as [l0|]; [congruence|].
    intros Heq. rewrite <- Heq, fresh_unused in Hsome. destruct Hsome. discriminate.
Qed.

Lemma resolvedFor_effect (r : Revision) (gi : GoalInvocation) (w : World) :
  (forall l0, configuration_sdm_cache gi = Some l0 ->
     heap (resolvedFor r gi w) !! l0 = Some (populate gi (deref (heap w) l0))) /\
  (forall l', configuration_sdm_cache gi <> Some l' -> is_Some (heap w !! l') ->
     heap (resolvedFor r gi w) !! l' = heap w !! l').
Proof.
  destruct r as [n|]; cbn [resolvedFor]; [apply resolved_effect|].
  destruct (resolved_effect gi w) as [H1 H2].
  destruct (resolved_effect gi (resolved gi w)) as [H3 H4]. split.
  - intros l0 Hl0. rewrite (H3 l0 Hl0). unfold deref at 1. rewrite (H1 l0 Hl0). cbn.
    rewrite populate_populate. reflexivity.
  - intros l' Hl' Hsome. rewrite H4; [apply H2; assumption|exact Hl'|].
    rewrite H2; assumption.
Qed.

Lemma runOp_heap (r : Revision) (o : Operation) (gi : GoalInvocation) (classifier : string)
    (w : World) :
  heap (snd (runOp r o gi classifier w)) = heap (resolvedFor r gi w).
Proof. rewrite runOp_request. apply gcsReq_frame. Qed.

(** X7: an operation changes the heap as resolving the configuration
    does, and no more: the cache block of the invocation, when there is
    one, is left populated with the defaults, and every other object that
    existed is left as it was. *)
Theorem operations_populate_cache_block :
  forall (r : Revision) (o : Operation) (gi : GoalInvocation) (classifier : string) (w : World),
    (forall l0, configuration_sdm_cache gi = Some l0 ->
       heap (snd (runOp r o gi classifier w)) !! l0
       = Some (populate gi (deref (heap w) l0))) /\
    (forall l', configuration_sdm_cache gi <> Some l' -> is_Some (heap w !! l') ->
       heap (snd (runOp r o gi classifier w)) !! l' = heap w !! l').
Proof. intros. rewrite runOp_heap. apply resolvedFor_effect. Qed.

(** ** The object that the operations address *)

Lemma names_after_op (r : Revision) (o : Operation) (gi : GoalInvocation)
    (classifier classifier' : string) (w : World) :
  bucketName gi (snd (runOp r o gi classifier w)) = bucketName gi w /\
  keyOf r gi classifier' (snd (runOp r o gi classifier w)) = keyOf r gi classifier' w.
Proof.
  destruct (cacheBefore_resolved gi w (snd (runOp r o gi classifier w))) as [Hb Hp].
  - rewrite runOp_heap. apply resolvedFor_heap.
  - split; [exact Hb|]. apply keyOf_stable. exact Hp.
Qed.

(** X8: an operation does not change what the next one resolves: after
    it, the same invocation gets the same bucket and, for every
    classifier, the same object key. *)
Theorem object_stable_across_operations :
  forall (r : Revision) (o : Operation) (gi : GoalInvocation) (classifier classifier' : string)
         (w : World),
    resolvedBucket gi (snd (runOp r o gi classifier w)) = resolvedBucket gi w /\
    resolvedKey r gi classifier' (snd (runOp r o gi classifier w))
    = resolvedKey r gi classifier' w.
Proof.
  intros. rewrite !resolvedBucket_run, !resolvedKey_run.
  destruct (names_after_op r o gi classifier classifier' w) as [-> ->]. split; reflexivity.
Qed.

(** ** What an operation does to the storage and the local files *)

Lemma resolvedFor_disks (r : Revision) (gi : GoalInvocation) (w : World) :
  disks (resolvedFor r gi w) = disks w.
Proof. unfold disks. rewrite resolvedFor_cloud. reflexivity. Qed.

Lemma runOp_disks (r : Revision) (o : Operation) (gi : GoalInvocation) (classifier : string)
    (w : World) :
  let object := objectOf r gi classifier w in
  actOf r o (fst object) (snd object) (disks w)
  = (Returned tt, disks (snd (runOp r o gi classifier w))) \/
  disks (snd (runOp r o gi classifier w)) = disks w.
Proof.
  cbv zeta. unfold objectOf. cbn [fst snd]. rewrite runOp_request.
  destruct (gcsReq_inv _ (actOf_fails_clean r o (bucketName gi w) (keyOf r gi classifier w))
              (retriesOf r) (bucketName gi w) (keyOf r gi classifier w) (verbOf o)
              (resolvedFor r gi w)) as [_ H].
  cbv zeta in H. rewrite resolvedFor_disks in H. destruct H as [(_ & _ & H)|(e & _ & H & _)]; [left|right]; exact H.
Qed.

Lemma runOp_touches (r : Revision) (o : Operation) (gi : GoalInvocation) (classifier : string)
    (w : World) :
  TouchesOnly o (objectOf r gi classifier w) w (snd (runOp r o gi classifier w)).
Proof.
  destruct (runOp_disks r o gi classifier w) as [H|H]; cbv zeta in H;
    unfold disks, objectOf in *; cbn [fst snd] in H.
  - destruct o as [f|f|]; cbn [actOf TouchesOnly] in *.
    + apply storeAct_returned in H as (content & _ & [= Ho Hf]). cbn [fst snd] in *.
      split; [exact Hf|]. intros k Hk. rewrite Ho. apply lookup_insert_ne. congruence.
    + apply retrieveAct_returned in H as (content & _ & [= Ho Hf]). cbn [fst snd] in *.
      split; [exact Ho|]. intros g Hg. rewrite Hf. apply lookup_insert_ne. congruence.
    + apply deleteAct_returned in H as (_ & [= Ho Hf]). cbn [fst snd] in *.
      split; [exact Hf|]. intros k Hk. rewrite Ho. apply lookup_delete_ne. congruence.
  - injection H as Ho Hf. destruct o; cbn [TouchesOnly]; split; try assumption;
      intros; congruence.
Qed.

(** X9: whether it succeeds or fails, a store or a delete changes no
    local file and no object but the one at the resolved bucket and key,
    and a retrieve changes no object and no local file but its target. *)
Theorem operations_touch_only_their_object :
  forall (r : Revision) (o : Operation) (gi : GoalInvocation) (classifier : string) (w : World),
    TouchesOnly o (objectOf r gi classifier w) w (snd (runOp r o gi classifier w)).
Proof. exact runOp_touches. Qed.

(** ** Operations that find nothing *)

Lemma found_false_act (r : Revision) (o : Operation) (object : string * string) (w : World) :
  found o object w = false ->
  exists e0, actOf r o (fst object) (snd object) (disks w) = (Threw e0, disks w).
Proof.
  destruct object as [b key]. unfold found, disks. cbn [fst snd].
  destruct o as [f|f|]; intros H; apply bool_decide_eq_false in H;
    apply eq_None_not_Some in H; cbn [actOf];
    unfold storeAct, retrieveAct, deleteAct, Storage.uploadAct, Storage.downloadAct,
      Storage.deleteAct; cbn [fst snd]; rewrite H; eauto.
Qed.

Lemma retryLoop_request_all_fail act (n : nat) : forall (w : World) (e0 : Error),
  act (disks w) = (Threw e0, disks w) ->
  exists e,
    fst (retryLoop n (Storage.request act) w) = Threw e /\
    calls (cloud (snd (retryLoop n (Storage.request act) w))) = calls (cloud w) + S n /\
    disks (snd (retryLoop n (Storage.request act) w)) = disks w.
Proof.
  induction n as [|n IH]; intros w e0 Hact; cbn [retryLoop]; rewrite request_result.
  - destruct (head (faults (cloud w))) as [[msg|]|]; rewrite ?Hact; cbn;
      eexists; (split; [reflexivity|]); split; reflexivity || lia.
  - assert (Hnext : exists e1,
               match head (faults (cloud w)) with
               | Some (Some msg) => (Threw (mkError msg), afterRequest w (disks w))
               | _ => (fst (act (disks w)), afterRequest w (snd (act (disks w))))
               end = (Threw e1, afterRequest w (disks w))).
    { destruct (head (faults (cloud w))) as [[msg|]|]; rewrite ?Hact; eauto. }
    destruct Hnext as [e1 ->].
    destruct (IH (afterRequest w (disks w)) e0 Hact) as (e & H1 & H2 & H3).
    exists e. split; [exact H1|]. split; [rewrite H2; cbn; lia|exact H3].
Qed.

Lemma runOp_finds_nothing (r : Revision) (o : Operation) (gi : GoalInvocation)
    (classifier : string) (w : World) :
  found o (objectOf r gi classifier w) w = false ->
  exists e,
    FailsCleanly r o gi classifier w e /\
    fst (runOp r o gi classifier w)
    = if String.eqb (verbOf o) "retrieve"
      then Threw (mkError (failureMessage (verbOf o)
                             (objectUri (bucketName gi w) (keyOf r gi classifier w)) e))
      else Returned tt.
Proof.
  intros Hfound. apply (found_false_act r) in Hfound as [e0 Hact].
  unfold FailsCleanly, objectOf in *. cbn [fst snd] in *. rewrite runOp_request.
  rewrite <- (resolvedFor_disks r gi w) in Hact.
  set (b := bucketName gi w) in *. set (key := keyOf r gi classifier w) in *.
  set (started := logged debug (startMessage (verbOf o) (objectUri b key)) (resolvedFor r gi w)).
  destruct (retryLoop_request_all_fail (actOf r o b key) (retriesOf r) started e0 Hact)
    as (e & H1 & H2 & H3).
  unfold gcsReq. fold started.
  destruct (retryLoop (retriesOf r) _ started) as [[[]|e'] w0]; cbn in H1; [discriminate|].
  injection H1 as ->. cbn [fst snd] in *. exists e.
  unfold disks in H3. cbn in H3. rewrite resolvedFor_cloud in H3. injection H3 as Ho Hf.
  cbn in H2. rewrite resolvedFor_cloud in H2.
  cbn. rewrite last_snoc. repeat split; assumption.
Qed.

(** X10: a retrieve that finds no object at the resolved key is a cache
    miss that the caller sees: in both revisions it throws the rewritten
    error, after every request of its budget, and its last log line is
    that error, at error level. *)
Theorem cache_miss_is_rethrown :
  forall (r : Revision) (gi : GoalInvocation) (classifier file : string) (w : World),
    objects (cloud w) !! objectOf r gi classifier w = None ->
    exists e,
      fst (runOp r (opRetrieve file) gi classifier w)
      = Threw (mkError
                 ("Failed to retrieve cache archive "
                  +:+ objectUri (bucketName gi w) (keyOf r gi classifier w)
                  +:+ ": " +:+ message e)) /\
      calls (cloud (snd (runOp r (opRetrieve file) gi classifier w)))
      = calls (cloud w) + S (retriesOf r) /\
      last (clientLog (snd (runOp r (opRetrieve file) gi classifier w)))
      = Some (error,
              "Failed to retrieve cache archive "
              +:+ objectUri (bucketName gi w) (keyOf r gi classifier w)
              +:+ ": " +:+ message e).
Proof.
  intros r gi classifier file w Hnone.
  destruct (runOp_finds_nothing r (opRetrieve file) gi classifier w)
    as (e & (_ & _ & Hcalls & Hlog) & Hres).
  - cbn [found]. rewrite Hnone. apply bool_decide_eq_false. intros [x Hx]. discriminate.
  - exists e. split; [exact Hres|]. split; [exact Hcalls|exact Hlog].
Qed.

Lemma cache_miss_is_rethrown_witness :
  exists e,
    fst (runOp (rev2020 2) (opRetrieve "out.tgz") giProvided "c" (worldWith providedBlock))
    = Threw (mkError
               ("Failed to retrieve cache archive gs://hickory-wind/lazy/days/c/cache.tar.gz"
                +:+ ": " +:+ message e)) /\
    calls (cloud (snd (runOp (rev2020 2) (opRetrieve "out.tgz") giProvided "c"
                         (worldWith providedBlock)))) = 3 /\
    last (clientLog (snd (runOp (rev2020 2) (opRetrieve "out.tgz") giProvided "c"
                            (worldWith providedBlock))))
    = Some (error,
            "Failed to retrieve cache archive gs://hickory-wind/lazy/days/c/cache.tar.gz"
            +:+ ": " +:+ message e).
Proof.
  destruct (cache_miss_is_rethrown (rev2020 2) giProvided "c" "out.tgz"
              (worldWith providedBlock) eq_refl) as (e & Hres & Hcalls & Hlog).
  exists e. split; [exact Hres|]. split; [exact Hcalls|exact Hlog].
Defined.

(** X11: a store whose local file is missing, and a delete that finds no
    object at the resolved key, return normally in both revisions: the
    failure is only logged, after every request of the budget, and
    nothing is changed. *)
Theorem missing_input_is_swallowed :
  forall (r : Revision) (gi : GoalInvocation) (classifier : string) (w : World),
    (forall file : string,
       files (cloud w) !! file = None ->
       fst (runOp r (opStore file) gi classifier w) = Returned tt /\
       exists e, FailsCleanly r (opStore file) gi classifier w e) /\
    (objects (cloud w) !! objectOf r gi classifier w = None ->
     fst (runOp r opDelete gi classifier w) = Returned tt /\
     exists e, FailsCleanly r opDelete gi classifier w e).
Proof.
  intros r gi classifier w. split.
  - intros file Hnone.
    destruct (runOp_finds_nothing r (opStore file) gi classifier w) as (e & Hclean & Hres).
    + cbn [found]. rewrite Hnone. apply bool_decide_eq_false. intros [x Hx]. discriminate.
    + split; [exact Hres|eauto].
  - intros Hnone.
    destruct (runOp_finds_nothing r opDelete gi classifier w) as (e & Hclean & Hres).
    + cbn [found]. rewrite Hnone. apply bool_decide_eq_false. intros [x Hx]. discriminate.
    + split; [exact Hres|eauto].
Qed.

Lemma missing_input_is_swallowed_witness :
  fst (runOp rev2019 (opStore "absent.tgz") giProvided "c" (worldWith providedBlock))
  = Returned tt /\
  fst (runOp (rev2020 1) opDelete giProvided "c" (worldWith providedBlock)) = Returned tt.
Proof.
  split.
  - apply (proj1 (missing_input_is_swallowed rev2019 giProvided "c" (worldWith providedBlock))
             "absent.tgz" eq_refl).
  - apply (proj2 (missing_input_is_swallowed (rev2020 1) giProvided "c"
                    (worldWith providedBlock)) eq_refl).
Defined.

(** ** Operations one after the other *)

Lemma retryLoop_request_faults_le act (n : nat) : forall w : World,
  countFaults (faults (cloud (snd (retryLoop n (Storage.request act) w))))
  <= countFaults (faults (cloud w)).
Proof.
  induction n as [|n IH]; intros w; cbn [retryLoop];
    pose proof (request_run act w) as (_ & _ & _ & _ & Hf);
    pose proof (countFaults_tail (faults (cloud w))) as Ht;
    destruct (Storage.request act w) as [[a|e] w0]; cbn [snd] in *;
    try (rewrite Hf; exact Ht).
  specialize (IH w0). rewrite Hf in IH. lia.
Qed.

Lemma runOp_faults_le (r : Revision) (o : Operation) (gi : GoalInvocation)
    (classifier : string) (w : World) :
  countFaults (faults (cloud (snd (runOp r o gi classifier w))))
  <= countFaults (faults (cloud w)).
Proof.
  rewrite runOp_request. unfold gcsReq.
  match goal with
  | |- context [retryLoop ?n (Storage.request ?a) ?w0] =>
      pose proof (retryLoop_request_faults_le a n w0) as H;
      destruct (retryLoop n (Storage.request a) w0) as [[[]|e] w1]
  end; cbn in *; rewrite resolvedFor_cloud in H; exact H.
Qed.

Lemma roundTrip_rev (r : Revision) :
  RoundTrip (retriesOf r) (keyOf r)
    (fun gi classifier file => runOp r (opStore file) gi classifier)
    (fun gi classifier file => runOp r (opRetrieve file) gi classifier)
    (fun gi classifier => runOp r opDelete gi classifier).
Proof.
  apply (round_trip_proof (retriesOf r) (keyOf r) (resolvedFor r)
           (match r with rev2020 _ => None | rev2019 => Some "projectPrivate" end)).
  - intros. apply (runOp_request r (opStore file)).
  - intros. apply (runOp_request r (opRetrieve file)).
  - intros. apply (runOp_request r opDelete).
  - apply resolvedFor_heap.
  - apply resolvedFor_cloud.
  - intros. apply keyOf_stable. assumption.
Qed.

Lemma objectOf_after_op (r : Revision) (o : Operation) (gi : GoalInvocation)
    (classifier classifier' : string) (w : World) :
  objectOf r gi classifier' (snd (runOp r o gi classifier w)) = objectOf r gi classifier' w.
Proof.
  unfold objectOf. destruct (names_after_op r o gi classifier classifier' w) as [-> ->].
  reflexivity.
Qed.

(** X12: a store overwrites: whatever an earlier store for the same
    invocation and classifier did, after a store of a file that exists the
    object has that file's content and a retrieve gives it back (with no
    more scheduled faults than the retry budget). *)
Theorem store_overwrites :
  forall (r : Revision) (gi : GoalInvocation) (classifier file1 file2 target content : string)
         (w : World),
    files (cloud w) !! file2 = Some content ->
    countFaults (faults (cloud w)) <= retriesOf r ->
    let w1 := snd (runOp r (opStore file1) gi classifier w) in
    let w2 := snd (runOp r (opStore file2) gi classifier w1) in
    let r3 := runOp r (opRetrieve target) gi classifier w2 in
    objects (cloud w2) !! objectOf r gi classifier w = Some content /\
    fst r3 = Returned tt /\
    files (cloud (snd r3)) !! target = Some content.
Proof.
  intros r gi classifier file1 file2 target content w Hfile Hfaults w1 w2 r3.
  assert (Hfile1 : files (cloud w1) !! file2 = Some content).
  { destruct (runOp_touches r (opStore file1) gi classifier w) as [Hf _].
    unfold w1. rewrite Hf. exact Hfile. }
  assert (Hfaults1 : countFaults (faults (cloud w1)) <= retriesOf r).
  { pose proof (runOp_faults_le r (opStore file1) gi classifier w). unfold w1. lia. }
  destruct (roundTrip_rev r gi classifier file2 target w1) as (_ & _ & Hgood).
  destruct (Hgood content Hfile1 Hfaults1) as (_ & _ & Hobj & Hret & Hread & _).
  cbn [fst snd] in Hobj.
  pose proof (objectOf_after_op r (opStore file1) gi classifier classifier w) as Hsame.
  unfold objectOf in Hsame. fold w1 in Hsame. rewrite Hsame in Hobj.
  repeat split; assumption.
Qed.

Lemma store_overwrites_witness :
  let w1 := snd (runOp (rev2020 1) (opStore "absent.tgz") giProvided "c" flakyWorld) in
  let w2 := snd (runOp (rev2020 1) (opStore "in.tgz") giProvided "c" w1) in
  let r3 := runOp (rev2020 1) (opRetrieve "out.tgz") giProvided "c" w2 in
  objects (cloud w2) !! ("hickory-wind", "lazy/days/c/cache.tar.gz") = Some "Test junk" /\
  fst r3 = Returned tt /\
  files (cloud (snd r3)) !! "out.tgz" = Some "Test junk".
Proof.
  apply (store_overwrites (rev2020 1) giProvided "c" "absent.tgz" "in.tgz" "out.tgz"
           "Test junk" flakyWorld); [reflexivity|cbn; lia].
Defined.

Lemma runOp_completed (r : Revision) (o : Operation) (gi : GoalInvocation)
    (classifier : string) (w : World) :
  let object := objectOf r gi classifier w in
  completed (verbOf o) (objectUri (fst object) (snd object))
    (snd (runOp r o gi classifier w)) ->
  actOf r o (fst object) (snd object) (disks w)
  = (Returned tt, disks (snd (runOp r o gi classifier w))).
Proof.
  cbv zeta. unfold objectOf. cbn [fst snd]. rewrite runOp_request. intros Hdone.
  destruct (gcsReq_inv _ (actOf_fails_clean r o (bucketName gi w) (keyOf r gi classifier w))
              (retriesOf r) (bucketName gi w) (keyOf r gi classifier w) (verbOf o)
              (resolvedFor r gi w)) as [_ H].
  cbv zeta in H. rewrite resolvedFor_disks in H.
  destruct H as [(_ & _ & H)|(e & Hlast & _)]; [exact H|].
  unfold completed in Hdone. congruence.
Qed.

(** X13: after a delete that completed nothing is left at the resolved
    key: a retrieve for the same invocation and classifier throws, and a
    second delete finds nothing, logs the failure and returns. *)
Theorem after_delete_nothing_is_left :
  forall (r : Revision) (gi : GoalInvocation) (classifier file : string) (w : World),
    let object := objectOf r gi classifier w in
    let uri := objectUri (fst object) (snd object) in
    let w1 := snd (runOp r opDelete gi classifier w) in
    completed "delete" uri w1 ->
    objects (cloud w1) !! object = None /\
    (exists e, fst (runOp r (opRetrieve file) gi classifier w1)
               = Threw (mkError (failureMessage "retrieve" uri e))) /\
    fst (runOp r opDelete gi classifier w1) = Returned tt /\
    (exists e, last (clientLog (snd (runOp r opDelete gi classifier w1)))
               = Some (error, failureMessage "delete" uri e)).
Proof.
  intros r gi classifier file w object uri w1 Hdone.
  pose proof (runOp_completed r opDelete gi classifier w Hdone) as Hact.
  apply deleteAct_returned in Hact as (_ & Hd). unfold disks in Hd.
  injection Hd as Ho _. cbn [fst snd] in Ho. fold w1 in Ho.
  assert (Hnone : objects (cloud w1) !! object = None).
  { rewrite Ho. unfold object, objectOf. apply lookup_delete_eq. }
  pose proof (objectOf_after_op r opDelete gi classifier classifier w) as Hsame.
  fold w1 in Hsame. fold object in Hsame.
  split; [exact Hnone|].
  assert (Hnames : bucketName gi w1 = fst object /\ keyOf r gi classifier w1 = snd object).
  { unfold objectOf in Hsame. injection Hsame as Hb Hk. split; assumption. }
  destruct Hnames as [Hb Hk].
  destruct (runOp_finds_nothing r (opRetrieve file) gi classifier w1) as (e1 & _ & Hres1).
  { cbn [found]. rewrite Hsame, Hnone. apply bool_decide_eq_false. intros [x Hx].
    discriminate. }
  destruct (runOp_finds_nothing r opDelete gi classifier w1) as (e2 & Hclean & Hres2).
  { cbn [found]. rewrite Hsame, Hnone. apply bool_decide_eq_false. intros [x Hx].
    discriminate. }
  rewrite Hb, Hk in Hres1. destruct Hclean as (_ & _ & _ & Hlast). rewrite Hsame in Hlast.
  cbn in Hres1, Hres2. repeat split; eauto.
Qed.

Lemma after_delete_nothing_is_left_witness :
  let w1 := snd (runOp (rev2020 0) opDelete giProvided "c" stockedWorld) in
  objects (cloud stockedWorld) !! ("hickory-wind", "lazy/days/c/cache.tar.gz") = Some "Old junk" /\
  objects (cloud w1) !! ("hickory-wind", "lazy/days/c/cache.tar.gz") = None /\
  fst (runOp (rev2020 0) opDelete giProvided "c" w1) = Returned tt.
Proof.
  cbv zeta.
  destruct (after_delete_nothing_is_left (rev2020 0) giProvided "c" "out.tgz" stockedWorld)
    as (Hnone & _ & Hagain & _).
  - vm_compute. reflexivity.
  - split; [reflexivity|]. split; [exact Hnone|exact Hagain].
Defined.

(** ** Replacing placeholders *)

Lemma expandReplacement_cons (c : ascii) (r pre matched post : string) :
  notDollar c = true ->
  expandReplacement (String c r) pre matched post
  = String c (expandReplacement r pre matched post).
Proof.
  unfold notDollar.
  destruct c as [[] [] [] [] [] [] [] []]; intros H; try discriminate H; reflexivity.
Qed.

Lemma expandReplacement_app (x r pre matched post : string) :
  noDollar x = true ->
  expandReplacement (x +:+ r) pre matched post = x +:+ expandReplacement r pre matched post.
Proof.
  induction x as [|c x IH]; [reflexivity|].
  unfold noDollar. cbn [allUnits]. intros [Hc Hx]%andb_true_iff.
  rewrite append_cons, expandReplacement_cons by exact Hc.
  rewrite IH by exact Hx. reflexivity.
Qed.

Lemma append_empty_r (s : string) : s +:+ "" = s.
Proof. induction s as [|c s IH]; [reflexivity|]. rewrite append_cons, IH. reflexivity. Qed.

Lemma expandReplacement_plain (repl pre matched post : string) :
  noDollar repl = true -> expandReplacement repl pre matched post = repl.
Proof.
  intros H. rewrite <- (append_empty_r repl) at 1.
  rewrite expandReplacement_app by exact H. apply append_empty_r.
Qed.

Lemma literal_other_head (lit' : string) (c : ascii) (r : string) :
  notDollar c = true -> literal (String "$" lit') (String c r) = None.
Proof.
  unfold notDollar, literal. cbn [String.prefix]. intros H.
  destruct (ascii_dec "$" c) as [<-|_]; [discriminate H|reflexivity].
Qed.

Lemma replaceFrom_absent (lit' repl : string) (s : string) : forall pre : string,
  noDollar s = true ->
  replaceFrom (literal (String "$" lit')) repl true pre 0 s = s.
Proof.
  induction s as [|c r IH]; intros pre; [reflexivity|].
  unfold noDollar. cbn [allUnits]. intros [Hc Hr]%andb_true_iff.
  cbn [replaceFrom]. rewrite literal_other_head by exact Hc.
  rewrite IH by exact Hr. reflexivity.
Qed.

Lemma replaceFrom_plain_prefix (lit' repl : string) (a t : string) : forall pre : string,
  noDollar a = true ->
  replaceFrom (literal (String "$" lit')) repl true pre 0 (a +:+ t)
  = a +:+ replaceFrom (literal (String "$" lit')) repl true (pre +:+ a) 0 t.
Proof.
  induction a as [|c a IH]; intros pre.
  - intros _. rewrite append_empty_r. reflexivity.
  - unfold noDollar. cbn [allUnits]. intros [Hc Ha]%andb_true_iff.
    rewrite !append_cons. cbn [replaceFrom]. rewrite literal_other_head by exact Hc.
    rewrite IH by exact Ha. rewrite append_assoc_s. reflexivity.
Qed.

Lemma replaceFrom_skip (m : Matcher) (repl : string) (x t : string) : forall pre : string,
  replaceFrom m repl true pre (String.length x) (x +:+ t)
  = replaceFrom m repl true (pre +:+ x) 0 t.
Proof.
  induction x as [|c x IH]; intros pre.
  - rewrite append_empty_r. reflexivity.
  - rewrite append_cons. cbn [String.length replaceFrom]. rewrite IH, append_assoc_s.
    reflexivity.
Qed.

Lemma prefix_append (k t : string) : String.prefix k (k +:+ t) = true.
Proof.
  induction k as [|c k IH]; [destruct t; reflexivity|].
  rewrite append_cons. cbn [String.prefix].
  destruct (ascii_dec c c) as [_|Hne]; [exact IH|congruence].
Qed.

Lemma take_append (x t : string) : take (String.length x) (x +:+ t) = x.
Proof.
  induction x as [|c x IH]; [destruct t; reflexivity|].
  rewrite append_cons. cbn [String.length take]. rewrite IH. reflexivity.
Qed.

Lemma drop_append (x t : string) : drop (String.length x) (x +:+ t) = t.
Proof.
  induction x as [|c x IH]; [reflexivity|].
  rewrite append_cons. cbn [String.length drop]. exact IH.
Qed.

(** A placeholder between two texts without dollar signs is replaced by
    the expansion of the replacement text. *)
Lemma replace_hit (k' repl a b : string) :
  noDollar a = true -> noDollar b = true ->
  replace (literal (String "$" k')) true repl (a +:+ String "$" k' +:+ b)
  = a +:+ expandReplacement repl a (String "$" k') b +:+ b.
Proof.
  intros Ha Hb. unfold replace. rewrite replaceFrom_plain_prefix by exact Ha.
  rewrite append_empty_l. f_equal. rewrite append_cons. cbn [replaceFrom].
  assert (Hm : literal (String "$" k') (String "$" (k' +:+ b))
               = Some (S (String.length k'))).
  { unfold literal. rewrite <- append_cons, prefix_append. reflexivity. }
  rewrite Hm. cbn [take drop]. rewrite take_append, drop_append. f_equal.
  rewrite replaceFrom_skip. apply replaceFrom_absent. exact Hb.
Qed.

(** Another pattern, which differs from the placeholder, leaves the text
    as it is. *)
Lemma replace_other (lit' k' repl a b : string) :
  noDollar a = true -> noDollar k' = true -> noDollar b = true ->
  (forall t, String.prefix (String "$" lit') (String "$" k' +:+ t) = false) ->
  replace (literal (String "$" lit')) true repl (a +:+ String "$" k' +:+ b)
  = a +:+ String "$" k' +:+ b.
Proof.
  intros Ha Hk Hb Hdiff. unfold replace. rewrite replaceFrom_plain_prefix by exact Ha.
  f_equal. rewrite append_cons. cbn [replaceFrom].
  assert (Hm : literal (String "$" lit') (String "$" (k' +:+ b)) = None).
  { unfold literal. rewrite <- append_cons, Hdiff. reflexivity. }
  rewrite Hm. f_equal. apply replaceFrom_absent.
  unfold noDollar in *. clear -Hk Hb. induction k' as [|c k IH]; [exact Hb|].
  rewrite append_cons. cbn [allUnits] in *. apply andb_true_iff in Hk as [Hc Hk].
  rewrite Hc. cbn. apply IH. exact Hk.
Qed.

Lemma replace_absent (lit' repl s : string) :
  noDollar s = true -> replace (literal (String "$" lit')) true repl s = s.
Proof. apply replaceFrom_absent. Qed.

Lemma noDollar_app (s t : string) :
  noDollar s = true -> noDollar t = true -> noDollar (s +:+ t) = true.
Proof.
  unfold noDollar. induction s as [|c s IH]; [auto|].
  rewrite append_cons. cbn [allUnits]. intros [Hc Hs]%andb_true_iff Ht.
  rewrite Hc. cbn. apply IH; assumption.
Qed.

(** X14: the revision of 2019 uses a classifier without a dollar sign as
    it is: the object key is <path>/<workspaceId>/<classifier>/cache.tar.gz. *)
Theorem plain_classifier_is_kept :
  forall (gi : GoalInvocation) (classifier : string) (w : World),
    noDollar classifier = true ->
    exists p,
      resolvedPath gi w = Some p /\
      fst (V2019.getCachePath gi (Some classifier) w)
      = Returned (p +:+ "/" +:+ context_workspaceId gi +:+ "/" +:+ classifier
                  +:+ "/cache.tar.gz").
Proof.
  intros gi classifier w Hplain. exists (pathPrefix gi w).
  split; [apply resolvedPath_run|]. rewrite getCachePath2019_run. cbn [fst].
  unfold cachePath2019, classifierPath.
  do 5 rewrite (replace_absent _ _ classifier) by exact Hplain.
  reflexivity.
Qed.

Lemma plain_classifier_is_kept_witness :
  fst (V2019.getCachePath giProvided (Some "node_modules") (worldWith providedBlock))
  = Returned "lazy/days/TH3BY4D5/node_modules/cache.tar.gz".
Proof.
  destruct (plain_classifier_is_kept giProvided "node_modules" (worldWith providedBlock)
              eq_refl) as (p & Hp & Hkey).
  rewrite Hkey. vm_compute in Hp. injection Hp as <-. reflexivity.
Defined.

Lemma classifierPath_placeholder (gi : GoalInvocation) (a b k v : string) :
  In (k, v) (placeholders gi) ->
  noDollar a = true -> noDollar b = true -> noDollar v = true ->
  classifierPath gi (a +:+ k +:+ b) = a +:+ v +:+ b.
Proof.
  intros Hin Ha Hb Hv.
  assert (Hplain : noDollar (a +:+ v +:+ b) = true)
    by (repeat apply noDollar_app; assumption).
  unfold placeholders in Hin. unfold classifierPath.
  destruct Hin as [H|[H|[H|[H|[H|[]]]]]]; injection H as <- <-.
  - rewrite (replace_hit "{providerId}" _ a b) by assumption.
    rewrite expandReplacement_plain by assumption.
    do 4 rewrite (replace_absent _ _ (a +:+ goalEvent_repo_providerId gi +:+ b))
      by exact Hplain.
    reflexivity.
  - rewrite (replace_other "{providerId}" "{owner}" _ a b)
      by (assumption || reflexivity || (intros; reflexivity)).
    rewrite (replace_hit "{owner}" _ a b) by assumption.
    rewrite expandReplacement_plain by assumption.
    do 3 rewrite (replace_absent _ _ (a +:+ goalEvent_repo_owner gi +:+ b)) by exact Hplain.
    reflexivity.
  - rewrite (replace_other "{providerId}" "{repo}" _ a b)
      by (assumption || reflexivity || (intros; reflexivity)).
    rewrite (replace_other "{owner}" "{repo}" _ a b)
      by (assumption || reflexivity || (intros; reflexivity)).
    rewrite (replace_hit "{repo}" _ a b) by assumption.
    rewrite expandReplacement_plain by assumption.
    do 2 rewrite (replace_absent _ _ (a +:+ goalEvent_repo_name gi +:+ b)) by exact Hplain.
    reflexivity.
  - rewrite (replace_other "{providerId}" "{branch}" _ a b)
      by (assumption || reflexivity || (intros; reflexivity)).
    rewrite (replace_other "{owner}" "{branch}" _ a b)
      by (assumption || reflexivity || (intros; reflexivity)).
    rewrite (replace_other "{repo}" "{branch}" _ a b)
      by (assumption || reflexivity || (intros; reflexivity)).
    rewrite (replace_hit "{branch}" _ a b) by assumption.
    rewrite expandReplacement_plain by assumption.
    rewrite (replace_absent _ _ (a +:+ goalEvent_branch gi +:+ b)) by exact Hplain.
    reflexivity.
  - rewrite (replace_other "{providerId}" "{sha}" _ a b)
      by (assumption || reflexivity || (intros; reflexivity)).
    rewrite (replace_other "{owner}" "{sha}" _ a b)
      by (assumption || reflexivity || (intros; reflexivity)).
    rewrite (replace_other "{repo}" "{sha}" _ a b)
      by (assumption || reflexivity || (intros; reflexivity)).
    rewrite (replace_other "{branch}" "{sha}" _ a b)
      by (assumption || reflexivity || (intros; reflexivity)).
    rewrite (replace_hit "{sha}" _ a b) by assumption.
    rewrite expandReplacement_plain by assumption.
    reflexivity.
Qed.

(** X15: the revision of 2019 replaces a placeholder of the classifier,
    ${providerId}, ${owner}, ${repo}, ${branch} or ${sha}, by the
    property of the invocation, and leaves the text around it, when
    neither that text nor the property has a dollar sign. *)
Theorem placeholder_is_replaced :
  forall (gi : GoalInvocation) (a b k v : string) (w : World),
    In (k, v) (placeholders gi) ->
    noDollar a = true -> noDollar b = true -> noDollar v = true ->
    exists p,
      resolvedPath gi w = Some p /\
      fst (V2019.getCachePath gi (Some (a +:+ k +:+ b)) w)
      = Returned (p +:+ "/" +:+ context_workspaceId gi +:+ "/" +:+ (a +:+ v +:+ b)
                  +:+ "/cache.tar.gz").
Proof.
  intros gi a b k v w Hin Ha Hb Hv. exists (pathPrefix gi w).
  split; [apply resolvedPath_run|]. rewrite getCachePath2019_run. cbn [fst].
  unfold cachePath2019. rewrite (classifierPath_placeholder gi a b k v) by assumption.
  reflexivity.
Qed.

Lemma placeholder_is_replaced_witness :
  fst (V2019.getCachePath giProvided (Some ("npm/" +:+ "${branch}" +:+ "/modules"))
         (worldWith providedBlock))
  = Returned "lazy/days/TH3BY4D5/npm/the-christian-life/modules/cache.tar.gz".
Proof.
  destruct (placeholder_is_replaced giProvided "npm/" "/modules" "${branch}"
              "the-christian-life" (worldWith providedBlock))
    as (p & Hp & Hkey); [cbn; tauto|reflexivity|reflexivity|reflexivity|].
  rewrite Hkey. vm_compute in Hp. injection Hp as <-. reflexivity.
Defined.

(** X16: the property that replaces a placeholder is read as a
    replacement pattern, not as plain text: where the sha has two dollar
    signs in a row, the object key of the revision of 2019 has one. *)
Theorem dollar_pair_in_value_is_collapsed :
  forall (gi : GoalInvocation) (a b x y : string) (w : World),
    goalEvent_sha gi = x +:+ "$$" +:+ y ->
    noDollar a = true -> noDollar b = true -> noDollar x = true -> noDollar y = true ->
    exists p,
      resolvedPath gi w = Some p /\
      fst (V2019.getCachePath gi (Some (a +:+ "${sha}" +:+ b)) w)
      = Returned (p +:+ "/" +:+ context_workspaceId gi +:+ "/"
                  +:+ (a +:+ (x +:+ "$" +:+ y) +:+ b) +:+ "/cache.tar.gz").
Proof.
  intros gi a b x y w Hsha Ha Hb Hx Hy. exists (pathPrefix gi w).
  split; [apply resolvedPath_run|]. rewrite getCachePath2019_run. cbn [fst].
  unfold cachePath2019, classifierPath.
  rewrite (replace_other "{providerId}" "{sha}" _ a b)
    by (assumption || reflexivity || (intros; reflexivity)).
  rewrite (replace_other "{owner}" "{sha}" _ a b)
    by (assumption || reflexivity || (intros; reflexivity)).
  rewrite (replace_other "{repo}" "{sha}" _ a b)
    by (assumption || reflexivity || (intros; reflexivity)).
  rewrite (replace_other "{branch}" "{sha}" _ a b)
    by (assumption || reflexivity || (intros; reflexivity)).
  rewrite (replace_hit "{sha}" _ a b) by assumption.
  rewrite Hsha, expandReplacement_app by exact Hx.
  rewrite !append_cons, append_empty_l. cbn [expandReplacement].
  rewrite expandReplacement_plain by exact Hy. reflexivity.
Qed.

Lemma dollar_pair_in_value_is_collapsed_witness :
  fst (V2019.getCachePath
         (mkGoalInvocation "sdm" (Some 0) "W" "p" "o" "r" "b" "ab$$cd")
         (Some "x/${sha}") (worldWith providedBlock))
  = Returned "lazy/days/W/x/ab$cd/cache.tar.gz".
Proof.
  destruct (dollar_pair_in_value_is_collapsed
              (mkGoalInvocation "sdm" (Some 0) "W" "p" "o" "r" "b" "ab$$cd")
              "x/" "" "ab" "cd" (worldWith providedBlock))
    as (p & Hp & Hkey); [reflexivity|reflexivity|reflexivity|reflexivity|reflexivity|].
  refine (eq_trans Hkey _). vm_compute in Hp. injection Hp as <-. reflexivity.
Defined.

(** ** The object key of the revision of 2020 *)

Lemma length_append_s (s t : string) :
  String.length (s +:+ t) = String.length s + String.length t.
Proof. induction s as [|c s IH]; [reflexivity|]. rewrite append_cons. cbn. rewrite IH. reflexivity. Qed.

Lemma append_inj_l (s x y : string) : s +:+ x = s +:+ y -> x = y.
Proof.
  induction s as [|c s IH]; [auto|]. rewrite !append_cons. intros [= H]. apply IH. exact H.
Qed.

Lemma append_inj_r (t : string) : forall x y : string, x +:+ t = y +:+ t -> x = y.
Proof.
  induction x as [|c x IH]; intros y H.
  - apply (f_equal String.length) in H. rewrite !length_append_s in H.
    destruct y; [reflexivity|]. cbn in H. lia.
  - destruct y as [|d y].
    + apply (f_equal String.length) in H. rewrite !length_append_s in H. cbn in H. lia.
    + rewrite !append_cons in H. injection H as -> H. f_equal. apply IH. exact H.
Qed.

(** X17: in the revision of 2020, for one configuration object, two
    classifier arguments get the same object key exactly when they are the
    same classifier once the default of the parameter is applied: a call
    without classifier reads as the classifier default, and apart from
    that different classifiers never get the same key. *)
Theorem cachePath2020_separates_classifiers :
  forall (cacheConfig : loc) (classifier1 classifier2 : option string) (w : World),
    fst (V2020.getCachePath cacheConfig classifier1 w)
    = fst (V2020.getCachePath cacheConfig classifier2 w) <->
    default "default" classifier1 = default "default" classifier2.
Proof.
  intros cacheConfig c1 c2 w. unfold V2020.getCachePath.
  cbv [mbind M_bind mret M_ret get]. cbn [fst join]. split.
  - generalize (default "default" c1) (default "default" c2). intros s1 s2.
    cbn [default from_option id].
    intros [= H]. apply append_inj_l in H. rewrite !append_cons, !append_empty_l in H.
    injection H as H. apply (append_inj_r _ _ _ H).
  - intros ->. reflexivity.
Qed.

Lemma cachePath2020_separates_classifiers_witness :
  fst (V2020.getCachePath 0 None (worldWith providedBlock))
  = fst (V2020.getCachePath 0 (Some "default") (worldWith providedBlock)) /\
  fst (V2020.getCachePath 0 (Some "node_modules") (worldWith providedBlock))
  <> fst (V2020.getCachePath 0 (Some "target") (worldWith providedBlock)).
Proof.
  split.
  - apply (proj2 (cachePath2020_separates_classifiers 0 None (Some "default")
                    (worldWith providedBlock))). reflexivity.
  - intros H.
    apply (proj1 (cachePath2020_separates_classifiers 0 (Some "node_modules") (Some "target")
                    (worldWith providedBlock))) in H.
    discriminate H.
Defined.

(** X18: in the revision of 2020 the path prefix and the classifier are
    joined with a slash and nothing tells them apart: the prefix p/q with
    the classifier c gets the object key of the prefix p with the
    classifier q/c. *)
Theorem cachePath2020_joint_is_ambiguous :
  forall (l1 l2 : loc) (p q c : string) (w : World),
    path (deref (heap w) l1) = Some (p +:+ "/" +:+ q) ->
    path (deref (heap w) l2) = Some p ->
    fst (V2020.getCachePath l1 (Some c) w)
    = fst (V2020.getCachePath l2 (Some (q +:+ "/" +:+ c)) w).
Proof.
  intros l1 l2 p q c w H1 H2. unfold V2020.getCachePath.
  cbv [mbind M_bind mret M_ret get]. cbn [fst join default from_option id].
  rewrite H1, H2. cbn [default from_option id]. f_equal.
  rewrite !append_assoc_s. reflexivity.
Qed.

Lemma cachePath2020_joint_is_ambiguous_witness :
  let w := mkWorld {[ 0 := mkCacheBlock (Some "b") (Some true) (Some "cache/npm");
                      1 := mkCacheBlock (Some "b") (Some true) (Some "cache") ]}
             emptyBackend [] [] in
  fst (V2020.getCachePath 0 (Some "deps") w) = Returned "cache/npm/deps/cache.tar.gz" /\
  fst (V2020.getCachePath 1 (Some "npm/deps") w) = Returned "cache/npm/deps/cache.tar.gz".
Proof.
  cbv zeta. split; [reflexivity|].
  rewrite <- (cachePath2020_joint_is_ambiguous 0 1 "cache" "npm" "deps"); reflexivity.
Defined.
